(** * avy: KML ingestion and NWAC forecast fetch, embedded and verified

    Shallow embedding of
      - src/hooks/useAlternateObservationZones.ts
      - src/hooks/useNWACWeatherForecast.ts
      - the list data of the weather station screen (StationList)
    JavaScript built-ins the code calls (String.prototype.trim / split,
    parseFloat, Boolean) and the zod combinators it uses are modelled
    after their ECMAScript / zod 3 definitions. *)

From Stdlib Require Import ZArith NArith Lia String Ascii Sorted.
From stdpp Require Import base option list numbers.

Local Open Scope N_scope.
Set Warnings "-register-all".

(** ** JavaScript strings

    A JS string is a sequence of UTF-16 code units. *)

Abbreviation jsstring := (list N).

Definition lit (s : string) : jsstring :=
  N_of_ascii <$> list_ascii_of_string s.

(** WhiteSpace and LineTerminator code points: what [trim], the regular
    expression class [\s] and parseFloat's leading trim all strip. *)
Definition is_ws (c : N) : bool :=
  ((9 <=? c) && (c <=? 13)) || (c =? 32) || (c =? 160) || (c =? 5760)
  || ((8192 <=? c) && (c <=? 8202)) || (c =? 8232) || (c =? 8233)
  || (c =? 8239) || (c =? 8287) || (c =? 12288) || (c =? 65279).

Fixpoint trimStart (s : jsstring) : jsstring :=
  match s with
  | [] => []
  | c :: r => if is_ws c then trimStart r else s
  end.

Fixpoint trimEnd (s : jsstring) : jsstring :=
  match s with
  | [] => []
  | c :: r =>
      match trimEnd r with
      | [] => if is_ws c then [] else [c]
      | r' => c :: r'
      end
  end.

(** [String.prototype.trim] *)
Definition trim (s : jsstring) : jsstring := trimEnd (trimStart s).

(** Prepend a code unit to the first piece of a split. *)
Definition cons_head (c : N) (pieces : list jsstring) : list jsstring :=
  match pieces with
  | [] => [[c]]
  | h :: t => (c :: h) :: t
  end.

(** [s.split(/\s+/)]: every maximal run of whitespace is one separator;
    a leading or trailing separator leaves an empty piece, and the empty
    string splits into one empty piece.  [in_sep] tells that the previous
    code unit belonged to a separator. *)
Fixpoint split_ws_from (in_sep : bool) (s : jsstring) : list jsstring :=
  match s with
  | [] => [[]]
  | c :: r =>
      if is_ws c then
        (if in_sep then split_ws_from true r else [] :: split_ws_from true r)
      else cons_head c (split_ws_from false r)
  end.

Definition split_ws (s : jsstring) : list jsstring := split_ws_from false s.

Definition comma : N := 44.

(** [s.split(',')] *)
Fixpoint split_comma (s : jsstring) : list jsstring :=
  match s with
  | [] => [[]]
  | c :: r =>
      if c =? comma then [] :: split_comma r
      else cons_head c (split_comma r)
  end.

(** ** JavaScript numbers

    The numbers of this program come from decimal text (parseFloat, JSON)
    or are small integers.  [Dec neg m e] stands for the double nearest to
    (-1)^neg * m * 10^e; the mantissa is kept without trailing zeros, so
    equal decimals have equal representations.  [NaN] and the infinities
    are themselves. *)
Inductive number : Type :=
  | NaN
  | Inf (neg : bool)
  | Dec (neg : bool) (mant : N) (exp10 : Z).

Global Instance number_eq_dec : EqDecision number.
Proof. solve_decision. Defined.

Fixpoint strip_zeros (fuel : nat) (m : N) (e : Z) : N * Z :=
  match fuel with
  | O => (m, e)
  | S fuel' =>
      if (m mod 10 =? 0) && negb (m =? 0)
      then strip_zeros fuel' (m / 10) (e + 1)%Z
      else (m, e)
  end.

Definition mkDec (neg : bool) (m : N) (e : Z) : number :=
  if m =? 0 then Dec neg 0 0
  else let '(m', e') := strip_zeros (N.to_nat (N.log2 m)) m e in Dec neg m' e'.

Definition is_digit (c : N) : bool := (48 <=? c) && (c <=? 57).

(** Longest prefix of decimal digits, as digit values, and what follows. *)
Fixpoint span_digits (s : jsstring) : list N * jsstring :=
  match s with
  | [] => ([], [])
  | c :: r =>
      if is_digit c
      then let '(ds, rest) := span_digits r in ((c - 48) :: ds, rest)
      else ([], s)
  end.

Definition digits_value (ds : list N) : N :=
  fold_left (fun acc d => 10 * acc + d) ds 0.

Fixpoint strip_prefix (p s : jsstring) : option jsstring :=
  match p, s with
  | [], _ => Some s
  | a :: p', b :: s' => if a =? b then strip_prefix p' s' else None
  | _ :: _, [] => None
  end.

(** ExponentPart, when present: [e] or [E], an optional sign, digits. *)
Definition parseExponent (s : jsstring) : Z :=
  match s with
  | c :: r =>
      if (c =? 101) || (c =? 69) then
        let '(neg, r') :=
          match r with
          | c2 :: r2 =>
              if c2 =? 43 then (false, r2)
              else if c2 =? 45 then (true, r2)
              else (false, r)
          | [] => (false, r)
          end in
        match span_digits r' with
        | ([], _) => 0%Z
        | (ds, _) =>
            let v := Z.of_N (digits_value ds) in
            if neg then (- v)%Z else v
        end
      else 0%Z
  | [] => 0%Z
  end.

(** StrUnsignedDecimalLiteral: the longest prefix that is [Infinity],
    [digits . digits? exp?], [. digits exp?] or [digits exp?]. *)
Definition parseUnsigned (neg : bool) (s : jsstring) : number :=
  match strip_prefix (lit "Infinity") s with
  | Some _ => Inf neg
  | None =>
      let '(ip, r1) := span_digits s in
      let '(fp, r2) :=
        match r1 with
        | c :: r => if c =? 46 then span_digits r else ([], r1)
        | [] => ([], r1)
        end in
      match ip, fp with
      | [], [] => NaN
      | _, _ =>
          mkDec neg (digits_value (ip ++ fp))
                (parseExponent r2 - Z.of_nat (length fp))%Z
      end
  end.

(** [parseFloat] on a string. *)
Definition parseFloat (s : jsstring) : number :=
  match trimStart s with
  | c :: r =>
      if c =? 43 then parseUnsigned false r
      else if c =? 45 then parseUnsigned true r
      else parseUnsigned false (c :: r)
  | [] => NaN
  end.

(** [parseFloat] on a value that may be [undefined] (a destructured array
    slot that does not exist): the argument is first converted with
    ToString, and ToString(undefined) is the text "undefined". *)
Definition parseFloat_arg (x : option jsstring) : number :=
  parseFloat (default (lit "undefined") x).

(** ** parseCoordinates (useAlternateObservationZones.ts, l.128-137) *)

(** The callback of the [map]:
    [const [longitude, latitude] = coord.split(',')]. *)
Definition coord_pair (coord : jsstring) : list number :=
  let parts := split_comma coord in
  [parseFloat_arg (parts !! 0%nat); parseFloat_arg (parts !! 1%nat)].

Definition is_empty (s : jsstring) : bool :=
  match s with [] => true | _ => false end.

Definition parseCoordinates (coordinateString : jsstring) : list (list number) :=
  if is_empty coordinateString || is_empty (trim coordinateString) then []
  else coord_pair <$> split_ws (trim coordinateString).

(** ** JavaScript values, as JSON delivers them *)

Inductive value : Type :=
  | VUndefined
  | VNull
  | VBool (b : bool)
  | VNum (n : number)
  | VStr (s : jsstring)
  | VArr (items : list value)
  | VObj (fields : list (jsstring * value)).

Fixpoint assoc {A : Type} (k : jsstring) (fields : list (jsstring * A)) : option A :=
  match fields with
  | [] => None
  | (k', v) :: rest => if bool_decide (k = k') then Some v else assoc k rest
  end.

(** [v[k]] on a value that is not null or undefined: a key that is absent
    reads as [undefined]. *)
Definition get (v : value) (k : jsstring) : value :=
  match v with
  | VObj fields => default VUndefined (assoc k fields)
  | _ => VUndefined
  end.

(** |m| * 10^e is at most 2^-1075, so the nearest double is a zero. *)
Definition rounds_to_zero (m : N) (e : Z) : bool :=
  (m =? 0) || ((e <? 0)%Z && (Z.of_N m * 2 ^ 1075 <=? 10 ^ (- e))%Z).

(** [Boolean(v)] *)
Definition toBoolean (v : value) : bool :=
  match v with
  | VUndefined | VNull => false
  | VBool b => b
  | VNum NaN => false
  | VNum (Inf _) => true
  | VNum (Dec _ m e) => negb (rounds_to_zero m e)
  | VStr s => negb (is_empty s)
  | VArr _ | VObj _ => true
  end.

(** ** The zod combinators the schemas are built from *)

Inductive ZodParsedType : Type :=
  | t_undefined | t_null | t_boolean | t_number | t_nan | t_string
  | t_array | t_object.

Definition getParsedType (v : value) : ZodParsedType :=
  match v with
  | VUndefined => t_undefined
  | VNull => t_null
  | VBool _ => t_boolean
  | VNum NaN => t_nan
  | VNum _ => t_number
  | VStr _ => t_string
  | VArr _ => t_array
  | VObj _ => t_object
  end.

Inductive path_elem : Type :=
  | PKey (k : jsstring)
  | PIndex (i : nat).

Inductive ZodIssueCode : Type :=
  | invalid_type (expected received : ZodParsedType)
  | invalid_enum_value.

Record ZodIssue : Type := mkIssue {
  code : ZodIssueCode;
  path : list path_elem
}.

Abbreviation ZodError := (list ZodIssue).

(** The result of [schema.safeParse]:
    [{success: true, data}] or [{success: false, error}]. *)
Inductive SafeParseReturn (A : Type) : Type :=
  | Success (data : A)
  | Failure (error : ZodError).
Arguments Success {A} data.
Arguments Failure {A} error.

Definition success {A} (r : SafeParseReturn A) : bool :=
  match r with Success _ => true | Failure _ => false end.

Inductive schema : Type :=
  | z_string
  | z_number
  | z_coerce_boolean
  | z_nativeEnum (values : list jsstring)
  | z_transform (inner : schema) (f : value -> value)
  | z_array (element : schema)
  | z_object (shape : list (jsstring * schema))
  | z_optional (inner : schema)
  | z_nullable (inner : schema).

Definition wrong_type (expected : ZodParsedType) (p : list path_elem) (v : value)
  : SafeParseReturn value :=
  Failure [mkIssue (invalid_type expected (getParsedType v)) p].

(** Children are all parsed, and the issues of all of them are kept. *)
Definition merge {A B C : Type} (f : A -> B -> C)
    (r1 : SafeParseReturn A) (r2 : SafeParseReturn B) : SafeParseReturn C :=
  match r1, r2 with
  | Success a, Success b => Success (f a b)
  | Success _, Failure e => Failure e
  | Failure e, Success _ => Failure e
  | Failure e1, Failure e2 => Failure (e1 ++ e2)
  end.

(** A parsed key is written to the output object when its value is defined
    or the key was present in the input; keys outside the shape are
    stripped. *)
Definition set_key (k : jsstring) (present : bool) (v : value)
    (rest : list (jsstring * value)) : list (jsstring * value) :=
  match v with
  | VUndefined => if present then (k, v) :: rest else rest
  | _ => (k, v) :: rest
  end.

Fixpoint parse (s : schema) (p : list path_elem) (v : value) {struct s}
  : SafeParseReturn value :=
  match s with
  | z_string =>
      match v with
      | VStr _ => Success v
      | _ => wrong_type t_string p v
      end
  | z_number =>
      match v with
      | VNum NaN => wrong_type t_number p v
      | VNum _ => Success v
      | _ => wrong_type t_number p v
      end
  | z_coerce_boolean => Success (VBool (toBoolean v))
  | z_nativeEnum values =>
      match v with
      | VStr x =>
          if bool_decide (x ∈ values) then Success v
          else Failure [mkIssue invalid_enum_value p]
      | VNum NaN => wrong_type t_string p v
      | VNum _ => Failure [mkIssue invalid_enum_value p]
      | _ => wrong_type t_string p v
      end
  | z_transform inner f =>
      match parse inner p v with
      | Success d => Success (f d)
      | Failure e => Failure e
      end
  | z_array element =>
      match v with
      | VArr items =>
          let fix go (i : nat) (items : list value) : SafeParseReturn (list value) :=
            match items with
            | [] => Success []
            | x :: rest =>
                merge cons (parse element (p ++ [PIndex i]) x) (go (S i) rest)
            end in
          match go 0%nat items with
          | Success ds => Success (VArr ds)
          | Failure e => Failure e
          end
      | _ => wrong_type t_array p v
      end
  | z_object shape =>
      match v with
      | VObj fields =>
          let fix go (shape : list (jsstring * schema))
              : SafeParseReturn (list (jsstring * value)) :=
            match shape with
            | [] => Success []
            | (k, sk) :: rest =>
                merge (set_key k (bool_decide (is_Some (assoc k fields))))
                      (parse sk (p ++ [PKey k]) (get v k)) (go rest)
            end in
          match go shape with
          | Success ds => Success (VObj ds)
          | Failure e => Failure e
          end
      | _ => wrong_type t_object p v
      end
  | z_optional inner =>
      match v with
      | VUndefined => Success VUndefined
      | _ => parse inner p v
      end
  | z_nullable inner =>
      match v with
      | VNull => Success VNull
      | _ => parse inner p v
      end
  end.

Definition safeParse (s : schema) (v : value) : SafeParseReturn value :=
  parse s [] v.

(** ** The forecast schema (useNWACWeatherForecast.ts, l.52-127) *)

Definition TimeOfDay : list (jsstring * jsstring) :=
  [ (lit "", lit "0-notspec");
    (lit "Morning", lit "1-morning");
    (lit "Mid-day", lit "1a-midday");
    (lit "Afternoon", lit "2-afternoon");
    (lit "Evening", lit "3-evening");
    (lit "Night", lit "4-night") ].

(** [z.nativeEnum(obj)] accepts the values of [obj]. *)
Definition nativeEnum (obj : list (jsstring * jsstring)) : schema :=
  z_nativeEnum (snd <$> obj).

(** [s.replace(pat, rep)] with a one-unit string pattern: only the first
    occurrence is replaced. *)
Fixpoint replace (pat : N) (rep : jsstring) (s : jsstring) : jsstring :=
  match s with
  | [] => []
  | c :: r => if c =? pat then rep ++ r else c :: replace pat rep r
  end.

(** [s => s.replace(' ', 'T') + '+00:00'], applied to the string that
    [z.string()] has accepted. *)
Definition utc_annotate (v : value) : value :=
  match v with
  | VStr s => VStr (replace 32 (lit "T") s ++ lit "+00:00")
  | _ => v
  end.

Definition nwacWeatherForecastSchema : schema :=
  z_object
    [ (lit "five_thousand_foot_temperatures",
        z_array (z_object [ (lit "min", z_number); (lit "max", z_number) ]));
      (lit "forecaster",
        z_object [ (lit "first_name", z_string); (lit "last_name", z_string) ]);
      (lit "mountain_weather_forecast",
        z_object
          [ (lit "id", z_number);
            (lit "creation_date", z_transform z_string utc_annotate);
            (lit "publish_date", z_transform z_string utc_annotate);
            (lit "day1_date", z_string);
            (lit "special_header_notes", z_string);
            (lit "synopsis_day1_day2", z_string);
            (lit "extended_synopsis", z_string);
            (lit "afternoon", z_coerce_boolean) ]);
      (lit "periods", z_array z_string);
      (lit "sub_periods", z_array z_string);
      (lit "precipitation_by_location",
        z_array
          (z_object
             [ (lit "name", z_string);
               (lit "order", z_number);
               (lit "precipitation",
                 z_array (z_object [ (lit "value", z_string) ])) ]));
      (lit "snow_levels", z_array (z_object [ (lit "elevation", z_number) ]));
      (lit "ridgeline_winds",
        z_array
          (z_object [ (lit "direction", z_string); (lit "speed", z_string) ]));
      (lit "weather_forecasts",
        z_array
          (z_object
             [ (lit "date", z_string);
               (lit "time_of_day", nativeEnum TimeOfDay);
               (lit "description", z_string) ])) ].

Definition nwacWeatherForecastMetaSchema : schema :=
  z_object
    [ (lit "meta",
        z_object
          [ (lit "limit", z_nullable (z_optional z_number));
            (lit "next", z_nullable (z_optional z_string));
            (lit "offset", z_nullable (z_optional z_number));
            (lit "previous", z_nullable (z_optional z_string));
            (lit "total_count", z_nullable (z_optional z_number)) ]);
      (lit "objects", nwacWeatherForecastSchema) ].

(** ** Effects: exceptions, the logger and the error tracker

    A computation ends by returning or by throwing, and leaves the
    records it sent to the logger and to Sentry, oldest first. *)

Inductive Exn : Type :=
  | AxiosError (info : jsstring)   (* transport failure *)
  | ZodErr (error : ZodError)      (* a thrown ZodError *)
  | JsError (info : jsstring).     (* any other thrown Error *)

Inductive LogLevel : Type := level_trace | level_debug | level_warn | level_error.

Inductive LogMessage : Type :=
  | msg_text (s : jsstring)
  | msg_invalid_kml (e : ZodError)
  | msg_invalid_properties (i : nat) (e : ZodError)
  | msg_error_parsing (e : Exn)
  | msg_unparsable_forecast (url : jsstring) (e : ZodError) (data : value).

Inductive Event : Type :=
  | Logged (level : LogLevel) (msg : LogMessage)
  | SentryCaptured (e : ZodError) (url : jsstring).

Inductive Outcome (A : Type) : Type :=
  | Returned (a : A)
  | Thrown (e : Exn).
Arguments Returned {A} a.
Arguments Thrown {A} e.

Record M (A : Type) : Type := mkM {
  outcome : Outcome A;
  events : list Event
}.
Arguments mkM {A} outcome events.
Arguments outcome {A} m.
Arguments events {A} m.

Definition ret {A} (a : A) : M A := mkM (Returned a) [].
Definition throw {A} (e : Exn) : M A := mkM (Thrown e) [].
Definition emit (ev : Event) : M unit := mkM (Returned tt) [ev].

Definition bind {A B} (m : M A) (k : A -> M B) : M B :=
  match outcome m with
  | Returned a => let r := k a in mkM (outcome r) (events m ++ events r)
  | Thrown e => mkM (Thrown e) (events m)
  end.

(** [try { body } catch (error) { handler }] *)
Definition try_catch {A} (body : M A) (handler : Exn -> M A) : M A :=
  match outcome body with
  | Returned _ => body
  | Thrown e => let r := handler e in mkM (outcome r) (events body ++ events r)
  end.

(** A call into a library that returns or throws and logs nothing. *)
Definition lift {A} (o : Outcome A) : M A := mkM o [].

Global Instance M_ret : MRet M := @ret.
Global Instance M_bind : MBind M := fun A B k m => bind m k.

Definition logger (level : LogLevel) (msg : LogMessage) : M unit :=
  emit (Logged level msg).

Definition Sentry_captureException (e : ZodError) (url : jsstring) : M unit :=
  emit (SentryCaptured e url).

(** [array.map((x, i) => f(x, i))] for a callback with effects, from
    index [i] on. *)
Fixpoint mapM_from {A B} (f : A -> nat -> M B) (i : nat) (l : list A) : M (list B) :=
  match l with
  | [] => mret []
  | x :: rest =>
      y ← f x i;
      ys ← mapM_from f (S i) rest;
      mret (y :: ys)
  end.

Definition mapM {A B} (f : A -> nat -> M B) (l : list A) : M (list B) :=
  mapM_from f 0 l.

(** ** KML trees and GeoJSON features

    The types are declared in types/nationalAvalancheCenter; the fields
    are those the two hooks read and write. *)

Record KMLName : Type := { _text : option jsstring }.
Record KMLCoordinates : Type := { coordinates_text : jsstring }.
Record KMLLinearRing : Type := { coordinates : KMLCoordinates }.
Record KMLBoundary : Type := { LinearRing : KMLLinearRing }.
Record KMLPolygon : Type := { outerBoundaryIs : KMLBoundary }.
Record KMLMultiGeometry : Type := { MultiGeometry_Polygon : KMLPolygon }.

Record KMLPlacemark : Type := {
  name : KMLName;
  Polygon : option KMLPolygon;
  MultiGeometry : option KMLMultiGeometry
}.

Record KMLFolder : Type := { Placemark : list KMLPlacemark }.
Record KMLDocument : Type := { Folder : KMLFolder }.
Record KMLRoot : Type := { Document : KMLDocument }.
Record KMLFile : Type := { kml : KMLRoot }.

Inductive TypeTag : Type := TFeature | TFeatureCollection | TPolygon.

Record Geometry : Type := {
  geometry_type : TypeTag;
  geometry_coordinates : list (list (list number))
}.

Record Feature (P : Type) : Type := {
  feature_type : TypeTag;
  geometry : Geometry;
  id : Z;
  properties : P
}.
Arguments feature_type {P} _.
Arguments geometry {P} _.
Arguments id {P} _.
Arguments properties {P} _.

Record FeatureCollection (P : Type) : Type := {
  collection_type : TypeTag;
  features : list (Feature P)
}.
Arguments collection_type {P} _.
Arguments features {P} _.

Record KMLProperties : Type := { kml_name : jsstring }.

Abbreviation KMLFeature := (Feature KMLProperties).
Abbreviation KMLFeatureCollection := (FeatureCollection KMLProperties).
Abbreviation AvalancheCenterID := (list N) (only parsing).

(** The candidate properties handed to the properties schema. *)
Record BaseProperties : Type := {
  base_name : jsstring;
  base_center_id : AvalancheCenterID
}.

(** [{type: 'FeatureCollection', features: []}] *)
Definition empty_collection {P} : FeatureCollection P :=
  {| collection_type := TFeatureCollection; features := [] |}.

(** [a || b] on a string that may be undefined: the empty string and
    [undefined] are falsy. *)
Definition or_default (a : option jsstring) (b : jsstring) : jsstring :=
  match a with
  | Some (c :: r) => c :: r
  | Some [] | None => b
  end.

(** ** getCoordinateString (l.119-126) *)
Definition getCoordinateString (placemark : KMLPlacemark) : jsstring :=
  match Polygon placemark with
  | Some polygon =>
      coordinates_text (coordinates (LinearRing (outerBoundaryIs polygon)))
  | None =>
      match MultiGeometry placemark with
      | Some mg =>
          coordinates_text
            (coordinates (LinearRing (outerBoundaryIs (MultiGeometry_Polygon mg))))
      | None => []
      end
  end.

(** The callback of [placemarks.map] in parseKmlData (l.96-111). *)
Definition placemarkToFeature (placemark : KMLPlacemark) (index : nat) : KMLFeature :=
  let coordinateString := getCoordinateString placemark in
  let coordinates := parseCoordinates coordinateString in
  {| feature_type := TFeature;
     geometry := {| geometry_type := TPolygon;
                    geometry_coordinates := [coordinates] |};
     id := Z.of_nat index;
     properties :=
       {| kml_name := or_default (_text (name placemark)) (lit "Unknown KML Zone") |} |}.

(** ** Query options (the [useQuery] / [prefetchQuery] calls)

    Durations are milliseconds or [Infinity]. *)

Inductive duration : Type :=
  | Millis (ms : N)
  | Forever.

Definition duration_le (a b : duration) : Prop :=
  match b with
  | Forever => True
  | Millis y =>
      match a with
      | Millis x => x <= y
      | Forever => False
      end
  end.

Record QueryOptions : Type := {
  staleTime : option duration;
  cacheTime : option duration
}.

(** A call that leaves [staleTime] out gets react-query's default, zero:
    the data is stale at once. *)
Definition defaultStaleTime : duration := Millis 0.

Definition staleness_horizon (o : QueryOptions) : duration :=
  default defaultStaleTime (staleTime o).

(** A call that leaves [cacheTime] out gets the default of the query
    client, which is set where the client is created. *)
Definition retention_horizon (defaultCacheTime : duration) (o : QueryOptions)
  : duration :=
  default defaultCacheTime (cacheTime o).

(** useNWACWeatherForecast.ts, l.21-26 *)
Definition useNWACWeatherForecast_options : QueryOptions :=
  {| staleTime := Some (Millis (60 * 60 * 1000));
     cacheTime := Some (Millis (24 * 60 * 60 * 1000)) |}.

(** useNWACWeatherForecast.ts, l.41-49 *)
Definition prefetchNWACWeatherForecast_options : QueryOptions :=
  {| staleTime := None; cacheTime := None |}.

(** useAlternateObservationZones.ts, l.26-32 *)
Definition useAlternateObservationZones_options : QueryOptions :=
  {| staleTime := None; cacheTime := Some Forever |}.

(** useAlternateObservationZones.ts, l.40-51 *)
Definition prefetchAlternateObservationZones_options : QueryOptions :=
  {| staleTime := Some (Millis (24 * 60 * 60 * 1000));
     cacheTime := Some Forever |}.

Definition all_query_options : list QueryOptions :=
  [ useNWACWeatherForecast_options;
    prefetchNWACWeatherForecast_options;
    useAlternateObservationZones_options;
    prefetchAlternateObservationZones_options ].

(** ** Whitespace-separated tokens, as the specification speaks of them:
    the maximal runs of code units that are not whitespace. *)

Definition starts_token (s : jsstring) : bool :=
  match s with
  | c :: _ => negb (is_ws c)
  | [] => false
  end.

Fixpoint tokens (s : jsstring) : list jsstring :=
  match s with
  | [] => []
  | c :: r =>
      if is_ws c then tokens r
      else if starts_token r then cons_head c (tokens r)
      else [c] :: tokens r
  end.

(** The string is empty or its last code unit is whitespace. *)
Fixpoint ends_ws (s : jsstring) : bool :=
  match s with
  | [] => true
  | c :: r =>
      match r with
      | [] => is_ws c
      | _ :: _ => ends_ws r
      end
  end.

(** A string that parseFloat reads a number from: after leading
    whitespace and one optional sign comes [Infinity], a digit, or a dot
    and a digit. *)
Definition unsigned_numeric (s : jsstring) : bool :=
  match strip_prefix (lit "Infinity") s with
  | Some _ => true
  | None =>
      match s with
      | c :: r =>
          is_digit c ||
          ((c =? 46) && match r with d :: _ => is_digit d | [] => false end)
      | [] => false
      end
  end.

Definition numeric (s : jsstring) : bool :=
  match trimStart s with
  | c :: r =>
      if (c =? 43) || (c =? 45) then unsigned_numeric r
      else unsigned_numeric (c :: r)
  | [] => false
  end.

(** A token is a number pair when it has at least two comma-separated
    components and the first two are numeric. *)
Definition is_number_pair (token : jsstring) : bool :=
  match split_comma token with
  | lon :: lat :: _ => numeric lon && numeric lat
  | _ => false
  end.

Definition is_NaN (n : number) : bool :=
  match n with NaN => true | _ => false end.

(** ** KML coordinate text, as a writer of the format produces it

    A decimal is a sign, integer digits and fraction digits; a point is
    [longitude,latitude]; points are separated by one space. *)

Record decimal : Type := {
  d_neg : bool;
  d_int : list N;
  d_frac : list N
}.

Definition digits_text (ds : list N) : jsstring := (fun d => d + 48) <$> ds.

Definition decimal_text (d : decimal) : jsstring :=
  (if d_neg d then [45] else [])
  ++ digits_text (d_int d)
  ++ match d_frac d with
     | [] => []
     | _ :: _ => 46 :: digits_text (d_frac d)
     end.

(** The number the decimal denotes. *)
Definition decimal_number (d : decimal) : number :=
  mkDec (d_neg d) (digits_value (d_int d ++ d_frac d))
        (- Z.of_nat (length (d_frac d)))%Z.

Definition wf_decimal (d : decimal) : Prop :=
  d_int d <> []
  /\ Forall (fun x => x < 10) (d_int d)
  /\ Forall (fun x => x < 10) (d_frac d).

(** At most fifteen digits in all.  The conversion of such a decimal to
    a double loses nothing: the double nearest to it is nearest to no
    other decimal of at most fifteen significant digits, so the decimal
    names the double. *)
Definition short_decimal (d : decimal) : Prop :=
  (length (d_int d) + length (d_frac d) <= 15)%nat.

Definition point_text (p : decimal * decimal) : jsstring :=
  decimal_text p.1 ++ comma :: decimal_text p.2.

Fixpoint render_coordinates (points : list (decimal * decimal)) : jsstring :=
  match points with
  | [] => []
  | p :: rest =>
      match rest with
      | [] => point_text p
      | _ :: _ => point_text p ++ 32 :: render_coordinates rest
      end
  end.

(** A schema whose successful results are never [undefined], so that an
    object schema always writes its key. *)
Definition never_undefined (s : schema) : Prop :=
  forall p v d, parse s p v = Success d -> d <> VUndefined.

(** The keys of the forecast schema other than
    [mountain_weather_forecast], and the keys of
    [mountain_weather_forecast] other than [afternoon]. *)
Definition forecast_keys_beside_mountain_weather : list jsstring :=
  [ lit "five_thousand_foot_temperatures"; lit "forecaster"; lit "periods";
    lit "sub_periods"; lit "precipitation_by_location"; lit "snow_levels";
    lit "ridgeline_winds"; lit "weather_forecasts" ].

Definition mountain_weather_keys_beside_afternoon : list jsstring :=
  [ lit "id"; lit "creation_date"; lit "publish_date"; lit "day1_date";
    lit "special_header_notes"; lit "synopsis_day1_day2";
    lit "extended_synopsis" ].

(** The string-valued keys of [mountain_weather_forecast]. *)
Definition forecast_string_keys : list jsstring :=
  [ lit "creation_date"; lit "publish_date"; lit "day1_date";
    lit "special_header_notes"; lit "synopsis_day1_day2";
    lit "extended_synopsis" ].

(** ** The weather station list (StationList)

    The types are declared in hooks/useWeatherStations and
    types/generated/snowbound; the fields are those StationList reads.
    [stationGroups] holds the entries of the object in the order of
    [Object.entries]. *)

Record StationMetadata : Type := { stid : jsstring }.

Record ZoneResult : Type := {
  zone_name : jsstring;
  stationGroups : list (jsstring * list StationMetadata)
}.

(** The parameters of [navigation.navigate('stationDetail', ...)]. *)
Record StationDetailParams : Type := {
  nav_center_id : AvalancheCenterID;
  station_stids : list jsstring;
  nav_name : jsstring;
  nav_requestedTime : jsstring;
  nav_zoneName : jsstring
}.

Record Action : Type := {
  label : jsstring;
  data : list StationMetadata;
  action : jsstring -> list StationMetadata -> StationDetailParams
}.

Record ZoneActions : Type := {
  zoneName : jsstring;
  actions : list Action
}.

(** [array.sort(compare)] for a consistent comparator, for which the
    result is fixed: the sorted permutation that keeps elements that
    compare equal in their order. *)
Fixpoint insert_by {A : Type} (compare : A -> A -> Z) (x : A) (l : list A) : list A :=
  match l with
  | [] => [x]
  | y :: r => if (compare x y <=? 0)%Z then x :: y :: r else y :: insert_by compare x r
  end.

Definition sort_by {A : Type} (compare : A -> A -> Z) (l : list A) : list A :=
  foldr (insert_by compare) [] l.

(** The [data] of StationList (l.24-37); [localeCompare] is
    [String.prototype.localeCompare]. *)
Definition StationList_data (localeCompare : jsstring -> jsstring -> Z)
    (center : AvalancheCenterID) (requestedTime : jsstring)
    (zones : list ZoneResult) : list ZoneActions :=
  List.filter (fun d => (0 <? length (actions d))%nat)
    ((fun zone =>
        {| zoneName := zone_name zone;
           actions :=
             sort_by (fun a b => localeCompare (label a) (label b))
               ((fun '(k, v) =>
                   {| label := k;
                      data := v;
                      action := fun name stations =>
                        {| nav_center_id := center;
                           station_stids := stid <$> stations;
                           nav_name := name;
                           nav_requestedTime := requestedTime;
                           nav_zoneName := zone_name zone |} |})
                  <$> stationGroups zone) |})
       <$> zones).

Definition has_station_groups (zone : ZoneResult) : bool :=
  match stationGroups zone with
  | [] => false
  | _ :: _ => true
  end.

(** Comparison of strings by code units, a consistent comparator. *)
Fixpoint codeunit_compare (a b : jsstring) : Z :=
  match a, b with
  | [], [] => 0%Z
  | [], _ :: _ => (-1)%Z
  | _ :: _, [] => 1%Z
  | x :: a', y :: b' =>
      match (x ?= y)%N with
      | Lt => (-1)%Z
      | Gt => 1%Z
      | Eq => codeunit_compare a' b'
      end
  end.

Definition sample_zones : list ZoneResult :=
  [ {| zone_name := lit "Stevens Pass";
       stationGroups :=
         [ (lit "Skyline", [ {| stid := lit "50" |}; {| stid := lit "51" |} ]);
           (lit "Berne", [ {| stid := lit "18" |} ]) ] |};
    {| zone_name := lit "Olympics"; stationGroups := [] |};
    {| zone_name := lit "Mt Hood";
       stationGroups := [ (lit "Timberline", [ {| stid := lit "56" |} ]) ] |} ].

(** ** Sample collaborators, used to run the hooks on concrete inputs *)

(** Modelled from the spec: KMLFileSchema, declared in
    types/nationalAvalancheCenter, which the hooks only import.
    [kml.Document.Folder.Placemark] must be present and be a list of
    placemark-shaped nodes, each with a [name] and with [Polygon] or
    [MultiGeometry] sub-nodes that hold an outer boundary linear ring
    with a coordinate text string.  Both sub-nodes are optional here, as
    getCoordinateString provides for a placemark that has neither. *)
Definition KMLPolygonSchema_model : schema :=
  z_object
    [ (lit "outerBoundaryIs",
        z_object
          [ (lit "LinearRing",
              z_object
                [ (lit "coordinates", z_object [ (lit "_text", z_string) ]) ]) ]) ].

Definition KMLFileSchema_model : schema :=
  z_object
    [ (lit "kml",
        z_object
          [ (lit "Document",
              z_object
                [ (lit "Folder",
                    z_object
                      [ (lit "Placemark",
                          z_array
                            (z_object
                               [ (lit "name",
                                   z_object [ (lit "_text", z_optional z_string) ]);
                                 (lit "Polygon", z_optional KMLPolygonSchema_model);
                                 (lit "MultiGeometry",
                                   z_optional
                                     (z_object
                                        [ (lit "Polygon", KMLPolygonSchema_model) ]))
                               ])) ]) ]) ]) ].

(** Reading a validated tree into the typed form. *)
Definition readPolygon (v : value) : option KMLPolygon :=
  match get (get (get (get v (lit "outerBoundaryIs")) (lit "LinearRing"))
                 (lit "coordinates")) (lit "_text") with
  | VStr s =>
      Some {| outerBoundaryIs :=
                {| LinearRing := {| coordinates := {| coordinates_text := s |} |} |} |}
  | _ => None
  end.

Definition readPlacemark (v : value) : KMLPlacemark :=
  {| name := {| _text := match get (get v (lit "name")) (lit "_text") with
                         | VStr s => Some s
                         | _ => None
                         end |};
     Polygon := readPolygon (get v (lit "Polygon"));
     MultiGeometry :=
       match readPolygon (get (get v (lit "MultiGeometry")) (lit "Polygon")) with
       | Some polygon => Some {| MultiGeometry_Polygon := polygon |}
       | None => None
       end |}.

Definition readKMLFile (v : value) : KMLFile :=
  {| kml :=
       {| Document :=
            {| Folder :=
                 {| Placemark :=
                      match get (get (get (get v (lit "kml")) (lit "Document"))
                                     (lit "Folder")) (lit "Placemark") with
                      | VArr items => readPlacemark <$> items
                      | _ => []
                      end |} |} |} |}.

Definition KMLFileSchema_model_safeParse (v : value) : SafeParseReturn KMLFile :=
  match safeParse KMLFileSchema_model v with
  | Success data => Success (readKMLFile data)
  | Failure e => Failure e
  end.

(** A properties validator that requires a non-empty name. *)
Definition nonEmptyName_safeParse (p : BaseProperties) : SafeParseReturn BaseProperties :=
  match base_name p with
  | [] => Failure [mkIssue invalid_enum_value [PKey (lit "name")]]
  | _ => Success p
  end.

(** An XML reader that yields one fixed tree, and a network that serves
    one fixed text. *)
Definition fixed_xml2json (response : jsstring) : Outcome jsstring :=
  Returned response.
Definition fixed_JSON_parse (tree : value) (text : jsstring) : Outcome value :=
  Returned tree.
Definition fixed_safeFetch (text : jsstring) (url : jsstring) : M jsstring :=
  mret text.

(** The tree of a document whose folder has no placemarks element. *)
Definition tree_without_placemarks : value :=
  VObj [ (lit "kml",
           VObj [ (lit "Document", VObj [ (lit "Folder", VObj []) ]) ]) ].

Definition ring_node (text : string) : value :=
  VObj [ (lit "outerBoundaryIs",
           VObj [ (lit "LinearRing",
                    VObj [ (lit "coordinates",
                             VObj [ (lit "_text", VStr (lit text)) ]) ]) ]) ].

(** A document with three placemarks: a named polygon, one with an empty
    name element and no geometry, and a named multi-geometry. *)
Definition tree_three_placemarks : value :=
  VObj [ (lit "kml",
     VObj [ (lit "Document",
       VObj [ (lit "Folder",
         VObj [ (lit "Placemark",
           VArr [ VObj [ (lit "name", VObj [ (lit "_text", VStr (lit "Alpental")) ]);
                         (lit "Polygon", ring_node "-121.75,47.43 -121.76,47.44 -121.75,47.43") ];
                  VObj [ (lit "name", VObj []) ];
                  VObj [ (lit "name", VObj [ (lit "_text", VStr (lit "Snoqualmie")) ]);
                         (lit "MultiGeometry",
                           VObj [ (lit "Polygon", ring_node "-121.4,47.4,0 -121.5,47.5,0") ]) ]
                ]) ]) ]) ]) ].

(** Three KML features, the second with an empty name. *)
Definition sample_feature (index : nat) (name : string) : KMLFeature :=
  {| feature_type := TFeature;
     geometry := {| geometry_type := TPolygon; geometry_coordinates := [[]] |};
     id := Z.of_nat index;
     properties := {| kml_name := lit name |} |}.

Definition sample_collection : KMLFeatureCollection :=
  {| collection_type := TFeatureCollection;
     features := [ sample_feature 0 "North"; sample_feature 1 "";
                   sample_feature 2 "South" ] |}.

Definition int (n : N) : value := VNum (mkDec false n 0).
Definition str (s : string) : value := VStr (lit s).

(** A forecast response around a given [mountain_weather_forecast]. *)
Definition sample_response (mountain_weather_forecast : value) : value :=
  VObj
    [ (lit "meta",
        VObj [ (lit "limit", int 1); (lit "next", VNull); (lit "offset", int 0);
               (lit "previous", VNull); (lit "total_count", int 1) ]);
      (lit "objects",
        VObj
          [ (lit "five_thousand_foot_temperatures",
              VArr [ VObj [ (lit "min", int 28); (lit "max", int 35) ] ]);
            (lit "forecaster",
              VObj [ (lit "first_name", str "A"); (lit "last_name", str "Forecaster") ]);
            (lit "mountain_weather_forecast", mountain_weather_forecast);
            (lit "periods", VArr [ str "Monday" ]);
            (lit "sub_periods", VArr [ str "Morning" ]);
            (lit "precipitation_by_location",
              VArr [ VObj [ (lit "name", str "Snoqualmie Pass");
                            (lit "order", int 1);
                            (lit "precipitation",
                              VArr [ VObj [ (lit "value", str "0.25") ] ]) ] ]);
            (lit "snow_levels", VArr [ VObj [ (lit "elevation", int 3500) ] ]);
            (lit "ridgeline_winds",
              VArr [ VObj [ (lit "direction", str "W"); (lit "speed", str "10-20") ] ]);
            (lit "weather_forecasts",
              VArr [ VObj [ (lit "date", str "2023-01-02");
                            (lit "time_of_day", str "1-morning");
                            (lit "description", str "Light snow.") ] ]) ]) ].

Definition sample_forecast_rest : list (jsstring * value) :=
  [ (lit "publish_date", str "2023-01-02 14:30:00");
    (lit "day1_date", str "2023-01-02");
    (lit "special_header_notes", str "");
    (lit "synopsis_day1_day2", str "Showers.");
    (lit "extended_synopsis", str "Drying.");
    (lit "afternoon", int 1) ].

Definition sample_response_valid : value :=
  sample_response
    (VObj ((lit "id", int 123)
           :: (lit "creation_date", str "2023-01-02 14:05:00")
           :: sample_forecast_rest)).

Definition sample_response_without_creation_date : value :=
  sample_response (VObj ((lit "id", int 123) :: sample_forecast_rest)).

(** The valid response, with the [afternoon] key left out. *)
Definition sample_response_without_afternoon : value :=
  sample_response
    (VObj ((lit "id", int 123)
           :: (lit "creation_date", str "2023-01-02 14:05:00")
           :: take 5 sample_forecast_rest)).

Definition fixed_axios_get {P : Type} (data : value) (url : jsstring) (params : P)
  : M value :=
  mret data.

(** ** The parts the hooks import and this development takes as given *)

Section Hooks.

(** [observationZonesPropertiesSchema.safeParse] and the type of the
    properties it yields (types/nationalAvalancheCenter). *)
Variable FullProperties : Type.
Variable observationZonesPropertiesSchema_safeParse :
  BaseProperties -> SafeParseReturn FullProperties.

(** [KMLFileSchema.safeParse] (types/nationalAvalancheCenter). *)
Variable KMLFileSchema_safeParse : value -> SafeParseReturn KMLFile.

(** [xml2json(text, {compact: true, spaces: 2})] of xml-js, and
    [JSON.parse]: each returns or throws. *)
Variable xml2json : jsstring -> Outcome jsstring.
Variable JSON_parse : jsstring -> Outcome value.

(** [safeFetch(() => axios.get(url), logger, ...)] (hooks/fetch): the
    text at [url], or a rejection. *)
Variable safeFetch : jsstring -> M jsstring.

(** [Date], [toDateTimeInterfaceATOM] (utils/date) and the [data] of
    [axios.get(url, {params})]. *)
Variable Date : Type.
Variable toDateTimeInterfaceATOM : Date -> jsstring.

Record ForecastParams : Type := {
  zone_id : Z;
  published_datetime : jsstring
}.

Variable axios_get : jsstring -> ForecastParams -> M value.

Abbreviation ObservationZonesFeature := (Feature FullProperties).
Abbreviation ObservationZonesFeatureCollection := (FeatureCollection FullProperties).

(** *** parseKmlData (l.75-117) *)
Definition parseKmlData (response url : jsstring) : M KMLFeatureCollection :=
  kmlResponse ← lift (xml2json response);
  tree ← lift (JSON_parse kmlResponse);
  match KMLFileSchema_safeParse tree with
  | Failure parseError =>
      logger level_error (msg_invalid_kml parseError);;
      Sentry_captureException parseError url;;
      mret {| collection_type := TFeatureCollection; features := [] |}
  | Success kmlData =>
      let placemarks := Placemark (Folder (Document (kml kmlData))) in
      let features :=
      imap (fun index placemark => placemarkToFeature placemark index) placemarks in
      mret {| collection_type := TFeatureCollection; features := features |}
  end.

(** *** transformKmlFeaturesToObservationZones (l.139-172) *)
Definition isObservationZoneFeature (feature : option ObservationZonesFeature) : bool :=
  match feature with
  | Some _ => true
  | None => false
  end.

(** The callback of [kmlCollection.features.map] (l.144-165). *)
Definition transformFeature (center_id : AvalancheCenterID)
    (feature : KMLFeature) (i : nat) : M (option ObservationZonesFeature) :=
  let baseProperties :=
    {| base_name := kml_name (properties feature);
       base_center_id := center_id |} in
  match observationZonesPropertiesSchema_safeParse baseProperties with
  | Failure parseError =>
      logger level_error (msg_invalid_properties i parseError);;
      mret None
  | Success fullProperties =>
      let numericId := (-100000 - Z.of_nat i)%Z in
      mret (Some {| feature_type := TFeature;
                    geometry := geometry feature;
                    id := numericId;
                    properties := fullProperties |})
  end.

Definition transformKmlFeaturesToObservationZones
    (kmlCollection : KMLFeatureCollection) (center_id : AvalancheCenterID)
  : M ObservationZonesFeatureCollection :=
  transformedFeatures ← mapM (transformFeature center_id) (features kmlCollection);
  let observationZones :=
    omap (fun feature => feature)
         (List.filter isObservationZoneFeature transformedFeatures) in
  mret {| collection_type := TFeatureCollection; features := observationZones |}.

(** *** fetchAlternateObservationZones (l.54-69) *)
Definition fetchAlternateObservationZones (url : jsstring)
    (center_id : AvalancheCenterID) : M ObservationZonesFeatureCollection :=
  logger level_debug (msg_text (lit "Fetching alternate observation zones"));;
  response ← safeFetch url;
  try_catch
    (kmlFeatureCollection ← parseKmlData response url;
     observationZones ←
       transformKmlFeaturesToObservationZones kmlFeatureCollection center_id;
     logger level_debug (msg_text (lit "Fetched alternate observation zones"));;
     mret observationZones)
    (fun caught =>
       logger level_error (msg_error_parsing caught);;
       mret {| collection_type := TFeatureCollection; features := [] |}).

(** *** fetchNWACWeatherForecast (useNWACWeatherForecast.ts, l.129-152) *)
Definition fetchNWACWeatherForecast (nwacHost : jsstring) (zone : Z)
    (requestedTime : Date) : M value :=
  let url := nwacHost ++ lit "/api/v1/mountain-weather-region-forecast" in
  let params :=
    {| zone_id := zone;
       published_datetime := toDateTimeInterfaceATOM requestedTime |} in
  data ← axios_get url params;
  match safeParse nwacWeatherForecastMetaSchema data with
  | Failure parseError =>
      logger level_warn (msg_unparsable_forecast url parseError data);;
      Sentry_captureException parseError url;;
      throw (ZodErr parseError)
  | Success parsed => mret (get parsed (lit "objects"))
  end.

(** The feature that ordinal [i] of the input contributes to the output
    of transformKmlFeaturesToObservationZones, if any. *)
Definition zoneOf (center_id : AvalancheCenterID) (entry : nat * KMLFeature)
  : option ObservationZonesFeature :=
  match outcome (transformFeature center_id entry.2 entry.1) with
  | Returned r => r
  | Thrown _ => None
  end.

(** The features of a collection, each with its ordinal. *)
Definition numbered (l : list KMLFeature) : list (nat * KMLFeature) :=
  imap pair l.

(** The same, counting from [k]. *)
Definition numbered_from (k : nat) (l : list KMLFeature) : list (nat * KMLFeature) :=
  imap (fun j g => ((k + j)%nat, g)) l.

Definition accepts (center_id : AvalancheCenterID) (feature : KMLFeature) : bool :=
  success (observationZonesPropertiesSchema_safeParse
             {| base_name := kml_name (properties feature);
                base_center_id := center_id |}).


(** The error record that ordinal [i] of the input leaves in the log of
    transformKmlFeaturesToObservationZones, if any. *)
Definition rejectionOf (center_id : AvalancheCenterID) (entry : nat * KMLFeature)
  : option Event :=
  match observationZonesPropertiesSchema_safeParse
          {| base_name := kml_name (properties entry.2);
             base_center_id := center_id |} with
  | Failure parseError =>
      Some (Logged level_error (msg_invalid_properties entry.1 parseError))
  | Success _ => None
  end.

(** ** Properties of the string primitives *)

Lemma trimStart_all_ws (s : jsstring) :
  trimStart s = [] <-> forallb is_ws s = true.
Proof.
  induction s as [|c r IH]; simpl; [done|].
  destruct (is_ws c); simpl; [exact IH|].
  split; discriminate.
Qed.

Lemma trimStart_starts_token (s : jsstring) :
  trimStart s = [] \/ starts_token (trimStart s) = true.
Proof.
  induction s as [|c r IH]; simpl; [by left|].
  destruct (is_ws c) eqn:E; [exact IH|].
  right. simpl. by rewrite E.
Qed.

Lemma trimEnd_nil_inv (c : N) (r : jsstring) :
  trimEnd (c :: r) = [] -> is_ws c = true /\ trimEnd r = [].
Proof.
  simpl. destruct (trimEnd r); [|discriminate].
  destruct (is_ws c); [done|discriminate].
Qed.

Lemma trimEnd_nil_tokens (s : jsstring) : trimEnd s = [] -> tokens s = [].
Proof.
  induction s as [|c r IH]; [done|].
  intros H. apply trimEnd_nil_inv in H as [Hc Hr].
  simpl. rewrite Hc. by apply IH.
Qed.

Lemma trimEnd_nil_starts_token (s : jsstring) :
  trimEnd s = [] -> starts_token s = false.
Proof.
  destruct s as [|c r]; [done|].
  intros H. apply trimEnd_nil_inv in H as [Hc _]. simpl. by rewrite Hc.
Qed.

Lemma starts_token_trimEnd (s : jsstring) :
  starts_token (trimEnd s) = starts_token s.
Proof.
  destruct s as [|c r]; [done|].
  simpl. destruct (trimEnd r) eqn:Hr.
  - destruct (is_ws c) eqn:E; simpl; by rewrite ?E.
  - done.
Qed.

Lemma tokens_trimStart (s : jsstring) : tokens (trimStart s) = tokens s.
Proof.
  induction s as [|c r IH]; [done|].
  simpl. destruct (is_ws c) eqn:E; [exact IH|].
  simpl. by rewrite E.
Qed.

Lemma tokens_trimEnd (s : jsstring) : tokens (trimEnd s) = tokens s.
Proof.
  induction s as [|c r IH]; [done|].
  pose proof (starts_token_trimEnd r) as Hst.
  simpl. destruct (trimEnd r) as [|c' r'] eqn:Hr.
  - rewrite (trimEnd_nil_tokens r Hr), (trimEnd_nil_starts_token r Hr).
    destruct (is_ws c) eqn:E; simpl; by rewrite ?E.
  - change (tokens (c :: c' :: r')) with
      (if is_ws c then tokens (c' :: r')
       else if starts_token (c' :: r') then cons_head c (tokens (c' :: r'))
       else [c] :: tokens (c' :: r')).
    by rewrite IH, Hst.
Qed.

Lemma tokens_trim (s : jsstring) : tokens (trim s) = tokens s.
Proof. unfold trim. by rewrite tokens_trimEnd, tokens_trimStart. Qed.

Lemma trimEnd_ends_ws (s : jsstring) :
  trimEnd s <> [] -> ends_ws (trimEnd s) = false.
Proof.
  induction s as [|c r IH]; [done|].
  simpl. destruct (trimEnd r) as [|c' r'] eqn:Hr.
  - destruct (is_ws c) eqn:E; [done|]. intros _. simpl. exact E.
  - intros _. change (ends_ws (c :: c' :: r')) with (ends_ws (c' :: r')).
    by apply IH.
Qed.

Lemma trim_all_ws (s : jsstring) : trim s = [] <-> forallb is_ws s = true.
Proof.
  rewrite <- trimStart_all_ws. unfold trim. split.
  - intros H. destruct (trimStart_starts_token s) as [|Hst]; [done|].
    rewrite <- starts_token_trimEnd, H in Hst. discriminate.
  - by intros ->.
Qed.

Lemma tokens_starts_token (s : jsstring) :
  starts_token s = true -> tokens s <> [].
Proof.
  destruct s as [|c r]; [discriminate|].
  simpl. destruct (is_ws c); [discriminate|]. intros _.
  destruct (starts_token r); [|done].
  by destruct (tokens r).
Qed.

(** [split(/\s+/)] against the tokens: the pieces are the tokens, with
    one empty piece more at an end where the string has whitespace. *)
Lemma split_ws_from_tokens (s : jsstring) :
  split_ws_from true s = tokens s ++ (if ends_ws s then [[]] else [])
  /\ (starts_token s = true ->
      split_ws_from false s = tokens s ++ (if ends_ws s then [[]] else [])).
Proof.
  induction s as [|c r [IHt IHf]]; [by split|].
  assert (Hnonws : is_ws c = false ->
    cons_head c (split_ws_from false r)
    = tokens (c :: r) ++ (if ends_ws (c :: r) then [[]] else [])).
  { intros E. simpl tokens. rewrite E.
    destruct r as [|c' r']; [simpl; by rewrite E|].
    change (ends_ws (c :: c' :: r')) with (ends_ws (c' :: r')).
    destruct (starts_token (c' :: r')) eqn:Hst.
    - rewrite (IHf eq_refl).
      pose proof (tokens_starts_token _ Hst).
      by destruct (tokens (c' :: r')).
    - simpl in Hst. apply negb_false_iff in Hst.
      assert (Hsplit : split_ws_from true (c' :: r') = split_ws_from true r')
        by (simpl; by rewrite Hst).
      simpl split_ws_from. rewrite Hst. simpl cons_head.
      by rewrite <- Hsplit, IHt. }
  split.
  - simpl split_ws_from. destruct (is_ws c) eqn:E; [|by apply Hnonws].
    rewrite IHt. simpl tokens. rewrite E.
    destruct r; simpl; by rewrite ?E.
  - intros Hst.
    assert (E : is_ws c = false) by (simpl in Hst; by apply negb_true_iff).
    simpl split_ws_from. rewrite E. by apply Hnonws.
Qed.

Lemma split_ws_trim (s : jsstring) :
  trim s <> [] -> split_ws (trim s) = tokens s.
Proof.
  intros Hne. unfold split_ws.
  destruct (split_ws_from_tokens (trim s)) as [_ H].
  rewrite H.
  - unfold trim in *. rewrite (trimEnd_ends_ws _ Hne), app_nil_r.
    by rewrite tokens_trimEnd, tokens_trimStart.
  - unfold trim in *. rewrite starts_token_trimEnd.
    destruct (trimStart_starts_token s) as [Hnil|]; [|done].
    by rewrite Hnil in Hne.
Qed.

(** parseCoordinates maps the per-token callback over the tokens. *)
Lemma parseCoordinates_tokens (s : jsstring) :
  parseCoordinates s = coord_pair <$> tokens s.
Proof.
  unfold parseCoordinates.
  destruct (trim s) as [|c r] eqn:Ht.
  - rewrite orb_true_r. rewrite <- (tokens_trim s), Ht. done.
  - destruct s as [|c0 r0]; [done|]. simpl "||".
    rewrite <- Ht, split_ws_trim; [done|]. by rewrite Ht.
Qed.

Lemma mkDec_not_NaN (neg : bool) (m : N) (e : Z) : mkDec neg m e <> NaN.
Proof.
  unfold mkDec. destruct (m =? 0); [done|].
  by destruct (strip_zeros _ m e).
Qed.

Lemma span_digits_nil (s : jsstring) :
  (span_digits s).1 = []
  <-> match s with c :: _ => is_digit c | [] => false end = false.
Proof.
  destruct s as [|c r]; simpl; [done|].
  destruct (is_digit c); [|done].
  destruct (span_digits r); simpl. split; discriminate.
Qed.

Lemma parseUnsigned_NaN (neg : bool) (s : jsstring) :
  parseUnsigned neg s = NaN <-> unsigned_numeric s = false.
Proof.
  unfold parseUnsigned, unsigned_numeric.
  destruct (strip_prefix (lit "Infinity") s); [split; discriminate|].
  destruct s as [|c r]; [done|].
  simpl span_digits. destruct (is_digit c) eqn:D.
  - destruct (span_digits r) as [ds rest].
    destruct (match rest with
              | [] => ([], rest)
              | c0 :: r0 => if c0 =? 46 then span_digits r0 else ([], rest)
              end) as [fp r2].
    simpl. split; [|discriminate].
    intros H. by apply mkDec_not_NaN in H.
  - simpl. destruct (c =? 46); [|done].
    pose proof (span_digits_nil r) as Hr.
    destruct (span_digits r) as [fp r2]. simpl in Hr.
    destruct fp as [|d fp].
    + split; [intros _; by apply Hr | done].
    + split.
      * intros H. by apply mkDec_not_NaN in H.
      * intros H. apply Hr in H. discriminate.
Qed.

(** parseFloat yields NaN exactly on the strings that are not numeric. *)
Lemma parseFloat_NaN (s : jsstring) :
  parseFloat s = NaN <-> numeric s = false.
Proof.
  unfold parseFloat, numeric.
  destruct (trimStart s) as [|c r]; [done|].
  destruct (c =? 43); simpl; [apply parseUnsigned_NaN|].
  destruct (c =? 45); apply parseUnsigned_NaN.
Qed.

Lemma parseFloat_undefined : parseFloat_arg None = NaN.
Proof. vm_compute. reflexivity. Qed.

(** The pair of a token has a NaN exactly when the token is not a
    number pair. *)
Lemma coord_pair_NaN (token : jsstring) :
  exists lon lat, coord_pair token = [lon; lat]
    /\ (is_number_pair token = false <-> lon = NaN \/ lat = NaN).
Proof.
  unfold coord_pair, is_number_pair.
  destruct (split_comma token) as [|lon [|lat rest]]; simpl.
  - do 2 eexists. split; [done|]. split; [|done]. intros _. left.
    apply parseFloat_undefined.
  - do 2 eexists. split; [done|]. split; [|done]. intros _. right.
    apply parseFloat_undefined.
  - do 2 eexists. split; [done|].
    unfold parseFloat_arg; simpl.
    rewrite andb_false_iff, !parseFloat_NaN. done.
Qed.

Lemma split_comma_single (l : jsstring) :
  comma ∉ l -> split_comma l = [l].
Proof.
  induction l as [|c r IH]; [done|].
  intros H. apply not_elem_of_cons in H as [Hc Hr].
  simpl. destruct (N.eqb_spec c comma); [congruence|].
  by rewrite IH.
Qed.

Lemma split_comma_app (l r : jsstring) :
  comma ∉ l -> split_comma (l ++ comma :: r) = l :: split_comma r.
Proof.
  induction l as [|c l IH]; [done|].
  intros H. apply not_elem_of_cons in H as [Hc Hr].
  simpl. destruct (N.eqb_spec c comma); [congruence|].
  by rewrite IH.
Qed.

(** ** parseCoordinates *)

(** C4: a token that is not a number pair is kept: the output has one
    pair per whitespace-separated token of the input, and the pair at
    the position of such a token has a NaN component. *)
Theorem parseCoordinates_keeps_malformed_token
    (s : jsstring) (i : nat) (token : jsstring) :
  tokens s !! i = Some token ->
  is_number_pair token = false ->
  length (parseCoordinates s) = length (tokens s)
  /\ exists lon lat, parseCoordinates s !! i = Some [lon; lat]
       /\ (lon = NaN \/ lat = NaN).
Proof.
  intros Hi Hbad. rewrite parseCoordinates_tokens. split.
  - apply length_fmap.
  - destruct (coord_pair_NaN token) as (lon & lat & Hpair & Hnan).
    exists lon, lat. split; [|by apply Hnan].
    by rewrite list_lookup_fmap, Hi, <- Hpair.
Qed.

(** A token that is a number pair yields no NaN. *)
Lemma parseCoordinates_number_pair (s : jsstring) (i : nat) (token : jsstring) :
  tokens s !! i = Some token ->
  is_number_pair token = true ->
  exists lon lat, parseCoordinates s !! i = Some [lon; lat]
    /\ lon <> NaN /\ lat <> NaN.
Proof.
  intros Hi Hok. rewrite parseCoordinates_tokens.
  destruct (coord_pair_NaN token) as (lon & lat & Hpair & Hnan).
  exists lon, lat. split.
  - by rewrite list_lookup_fmap, Hi, <- Hpair.
  - split; intros ->; destruct Hnan as [_ Hnan];
      rewrite Hnan in Hok; (discriminate || auto).
Qed.

(** C5: the empty and the all-whitespace string give the empty list;
    any other string is trimmed and split on runs of whitespace, and
    each token gives the floats of its first two comma-separated
    components, whatever follows a second comma. *)
Theorem parseCoordinates_format :
  (forall s, forallb is_ws s = true -> parseCoordinates s = [])
  /\ (forall s, forallb is_ws s = false ->
        parseCoordinates s = coord_pair <$> split_ws (trim s)
        /\ split_ws (trim s) = tokens s)
  /\ (forall lon lat, comma ∉ lon -> comma ∉ lat ->
        coord_pair (lon ++ comma :: lat) = [parseFloat lon; parseFloat lat]
        /\ forall altitude,
             coord_pair (lon ++ comma :: lat ++ comma :: altitude)
             = [parseFloat lon; parseFloat lat])
  /\ parseCoordinates (lit "-121.75,47.43 -121.76,47.44 -121.75,47.43")
     = [ [Dec true 12175 (-2); Dec false 4743 (-2)];
         [Dec true 12176 (-2); Dec false 4744 (-2)];
         [Dec true 12175 (-2); Dec false 4743 (-2)] ].
Proof.
  split; [|split; [|split]].
  - intros s Hs. apply trim_all_ws in Hs.
    unfold parseCoordinates. by rewrite Hs, orb_true_r.
  - intros s Hs.
    assert (Hne : trim s <> []).
    { intros H. apply trim_all_ws in H. congruence. }
    split; [|by apply split_ws_trim].
    rewrite parseCoordinates_tokens. by rewrite split_ws_trim.
  - intros lon lat Hlon Hlat. unfold coord_pair. split.
    + by rewrite split_comma_app, split_comma_single.
    + intros altitude. by rewrite !split_comma_app.
  - vm_compute. reflexivity.
Qed.

(** ** Running the effectful code *)

Lemma outcome_bind {A B} (m : M A) (k : A -> M B) (a : A) :
  outcome m = Returned a -> outcome (m ≫= k) = outcome (k a).
Proof. unfold mbind, M_bind, bind. by intros ->. Qed.

Lemma outcome_bind_thrown {A B} (m : M A) (k : A -> M B) (e : Exn) :
  outcome m = Thrown e -> outcome (m ≫= k) = Thrown e.
Proof. unfold mbind, M_bind, bind. by intros ->. Qed.

Lemma outcome_logger {B} (level : LogLevel) (msg : LogMessage) (k : unit -> M B) :
  outcome (logger level msg ≫= k) = outcome (k tt).
Proof. done. Qed.

(** ** transformKmlFeaturesToObservationZones *)

Lemma numbered_from_cons (k : nat) (g : KMLFeature) (l : list KMLFeature) :
  numbered_from k (g :: l) = (k, g) :: numbered_from (S k) l.
Proof.
  unfold numbered_from. rewrite imap_cons, Nat.add_0_r. f_equal.
  apply imap_ext. intros j x _. simpl. f_equal. lia.
Qed.

Lemma numbered_from_0 (l : list KMLFeature) : numbered l = numbered_from 0 l.
Proof. done. Qed.

Local Ltac from0 :=
  repeat match goal with
  | H : context [numbered ?l] |- _ => change (numbered l) with (numbered_from 0 l) in H
  | |- context [numbered ?l] => change (numbered l) with (numbered_from 0 l)
  end.

Lemma transformFeature_returns (c : AvalancheCenterID) (g : KMLFeature) (i : nat) :
  outcome (transformFeature c g i) = Returned (zoneOf c (i, g)).
Proof.
  unfold zoneOf, transformFeature. simpl.
  by destruct (observationZonesPropertiesSchema_safeParse _).
Qed.

Lemma zoneOf_accepted (c : AvalancheCenterID) (i : nat) (g : KMLFeature)
    (p : FullProperties) :
  observationZonesPropertiesSchema_safeParse
    {| base_name := kml_name (properties g); base_center_id := c |} = Success p ->
  zoneOf c (i, g)
  = Some {| feature_type := TFeature; geometry := geometry g;
            id := (-100000 - Z.of_nat i)%Z; properties := p |}.
Proof. unfold zoneOf, transformFeature. simpl. by intros ->. Qed.

Lemma zoneOf_rejected (c : AvalancheCenterID) (i : nat) (g : KMLFeature) :
  accepts c g = false -> zoneOf c (i, g) = None.
Proof.
  unfold accepts, zoneOf, transformFeature. simpl.
  by destruct (observationZonesPropertiesSchema_safeParse _).
Qed.

Lemma zoneOf_Some (c : AvalancheCenterID) (i : nat) (g : KMLFeature)
    (f : ObservationZonesFeature) :
  zoneOf c (i, g) = Some f ->
  accepts c g = true /\ id f = (-100000 - Z.of_nat i)%Z
  /\ geometry f = geometry g.
Proof.
  unfold accepts, zoneOf, transformFeature. simpl.
  destruct (observationZonesPropertiesSchema_safeParse _); simpl; [|done].
  by intros [= <-].
Qed.

Lemma mapM_from_transformFeature (c : AvalancheCenterID) (l : list KMLFeature) (k : nat) :
  outcome (mapM_from (transformFeature c) k l)
  = Returned (zoneOf c <$> numbered_from k l).
Proof.
  revert k. induction l as [|g l IH]; intros k; [done|].
  rewrite numbered_from_cons. simpl mapM_from.
  rewrite (outcome_bind _ _ _ (transformFeature_returns c g k)).
  rewrite (outcome_bind _ _ _ (IH (S k))). done.
Qed.

Lemma omap_filter_defined (l : list (option ObservationZonesFeature)) :
  omap (fun feature => feature) (List.filter isObservationZoneFeature l)
  = omap (fun feature => feature) l.
Proof.
  induction l as [|[f|] l IH]; simpl; [done| |done].
  f_equal. exact IH.
Qed.

(** What the function returns: the zones of the numbered features. *)
Lemma transform_returns (coll : KMLFeatureCollection) (c : AvalancheCenterID) :
  outcome (transformKmlFeaturesToObservationZones coll c)
  = Returned {| collection_type := TFeatureCollection;
                features := omap (zoneOf c) (numbered (features coll)) |}.
Proof.
  unfold transformKmlFeaturesToObservationZones, mapM.
  rewrite (outcome_bind _ _ _ (mapM_from_transformFeature c _ 0)).
  simpl. do 2 f_equal.
  rewrite omap_filter_defined. from0.
  induction (numbered_from 0 (features coll)) as [|x l IH]; [done|].
  csimpl. rewrite IH. by destruct (zoneOf c x).
Qed.

Lemma zones_length (c : AvalancheCenterID) (l : list (nat * KMLFeature)) :
  (length (omap (zoneOf c) l) <= length l)%nat.
Proof.
  induction l as [|x l IH]; csimpl; [done|].
  destruct (zoneOf c x); csimpl; lia.
Qed.

(** Entry [j] of the output comes from the input ordinal [k + i] that
    has exactly [j] accepted features before it. *)
Lemma zones_lookup (c : AvalancheCenterID) (l : list KMLFeature) (k j : nat)
    (f : ObservationZonesFeature) :
  omap (zoneOf c) (numbered_from k l) !! j = Some f ->
  exists i g, l !! i = Some g /\ zoneOf c ((k + i)%nat, g) = Some f
    /\ j = length (List.filter (accepts c) (take i l)).
Proof.
  revert k j. induction l as [|x l IH]; intros k j; [done|].
  rewrite numbered_from_cons. csimpl.
  destruct (zoneOf c (k, x)) as [y|] eqn:Hx.
  - destruct j as [|j]; csimpl.
    + intros [= <-]. exists 0%nat, x. by rewrite Nat.add_0_r.
    + intros H. apply IH in H as (i & g & Hi & Hz & Hj).
      exists (S i), g. split; [done|].
      split; [by rewrite Nat.add_succ_r|].
      apply zoneOf_Some in Hx as [Hacc _]. simpl. rewrite Hacc. simpl.
      by f_equal.
  - intros H. apply IH in H as (i & g & Hi & Hz & Hj).
    exists (S i), g. split; [done|].
    split; [by rewrite Nat.add_succ_r|].
    simpl. destruct (accepts c x) eqn:Hacc; [|done].
    unfold accepts in Hacc.
    destruct (observationZonesPropertiesSchema_safeParse
                {| base_name := kml_name (properties x); base_center_id := c |})
      as [p|] eqn:Hp; [|done].
    by rewrite (zoneOf_accepted c k x p Hp) in Hx.
Qed.

Lemma filter_take_le (c : AvalancheCenterID) (l : list KMLFeature) (i : nat) :
  (length (List.filter (accepts c) (take i l)) <= i)%nat.
Proof.
  revert i. induction l as [|x l IH]; intros [|i]; simpl; try lia.
  specialize (IH i). destruct (accepts c x); simpl; lia.
Qed.

Lemma filter_take_mono (c : AvalancheCenterID) (l : list KMLFeature) (i1 i2 : nat) :
  (i1 <= i2)%nat ->
  (length (List.filter (accepts c) (take i1 l))
   <= length (List.filter (accepts c) (take i2 l)))%nat.
Proof.
  revert i1 i2. induction l as [|x l IH]; intros [|i1] [|i2] H; simpl; try lia.
  specialize (IH i1 i2). destruct (accepts c x); simpl; lia.
Qed.

Lemma omap_delete_None {A B} (f : A -> option B) (l : list A) (i : nat) (x : A) :
  l !! i = Some x -> f x = None -> omap f (delete i l) = omap f l.
Proof.
  revert i. induction l as [|y l IH]; intros [|i] Hi Hx; simplify_eq/=.
  - by rewrite Hx.
  - by rewrite (IH i).
Qed.

(** C1: the output has at most as many features as the input, and the
    feature at output position [j] carries the identifier
    [-100000 - i] of the input ordinal [i] it comes from, which is the
    ordinal with [j] accepted features before it. *)
Theorem transform_ids_from_original_ordinals
    (kmlCollection : KMLFeatureCollection) (center_id : AvalancheCenterID) :
  exists out,
    outcome (transformKmlFeaturesToObservationZones kmlCollection center_id)
    = Returned out
    /\ (length (features out) <= length (features kmlCollection))%nat
    /\ forall j f, features out !! j = Some f ->
         exists i g, features kmlCollection !! i = Some g
           /\ accepts center_id g = true
           /\ id f = (-100000 - Z.of_nat i)%Z
           /\ geometry f = geometry g
           /\ j = length (List.filter (accepts center_id)
                                      (take i (features kmlCollection)))
           /\ (j <= i)%nat.
Proof.
  eexists. split; [apply transform_returns|]. simpl. split.
  - etrans; [apply zones_length|]. unfold numbered. by rewrite length_imap.
  - intros j f Hj. from0.
    apply zones_lookup in Hj as (i & g & Hi & Hz & Hcount).
    apply zoneOf_Some in Hz as (Hacc & Hid & Hgeo).
    exists i, g. repeat split; try done.
    rewrite Hcount. apply filter_take_le.
Qed.

Lemma zoneOf_Some_inv (c : AvalancheCenterID) (i : nat) (g : KMLFeature)
    (f : ObservationZonesFeature) :
  zoneOf c (i, g) = Some f ->
  exists p,
    observationZonesPropertiesSchema_safeParse
      {| base_name := kml_name (properties g); base_center_id := c |} = Success p
    /\ f = {| feature_type := TFeature; geometry := geometry g;
              id := (-100000 - Z.of_nat i)%Z; properties := p |}.
Proof.
  unfold zoneOf, transformFeature. simpl.
  destruct (observationZonesPropertiesSchema_safeParse _) as [p|]; simpl; [|done].
  intros [= <-]. by exists p.
Qed.

(** An accepted feature stands in the output at the position given by
    the number of accepted features before it. *)
Lemma zones_position (c : AvalancheCenterID) (l : list KMLFeature) (k i : nat)
    (g : KMLFeature) (f : ObservationZonesFeature) :
  l !! i = Some g ->
  zoneOf c ((k + i)%nat, g) = Some f ->
  omap (zoneOf c) (numbered_from k l)
    !! length (List.filter (accepts c) (take i l)) = Some f.
Proof.
  revert k i. induction l as [|x l IH]; intros k i Hi Hz; [done|].
  rewrite numbered_from_cons. csimpl.
  destruct i as [|i]; simpl in Hi.
  - injection Hi as ->. rewrite Nat.add_0_r in Hz. by rewrite Hz.
  - rewrite Nat.add_succ_r in Hz.
    specialize (IH (S k) i Hi Hz). simpl.
    destruct (zoneOf c (k, x)) as [y|] eqn:Hx.
    + apply zoneOf_Some in Hx as [Hacc _]. rewrite Hacc. exact IH.
    + destruct (accepts c x) eqn:Hacc; [|exact IH].
      unfold accepts in Hacc.
      destruct (observationZonesPropertiesSchema_safeParse
                  {| base_name := kml_name (properties x); base_center_id := c |})
        as [p|] eqn:Hp; [|done].
      by rewrite (zoneOf_accepted c k x p Hp) in Hx.
Qed.

Lemma zones_count (c : AvalancheCenterID) (l : list KMLFeature) (k : nat) :
  length (omap (zoneOf c) (numbered_from k l)) = length (List.filter (accepts c) l).
Proof.
  revert k. induction l as [|x l IH]; intros k; [done|].
  rewrite numbered_from_cons. csimpl. specialize (IH (S k)).
  unfold accepts at 1.
  destruct (observationZonesPropertiesSchema_safeParse
              {| base_name := kml_name (properties x); base_center_id := c |})
    as [p|] eqn:Hp.
  - rewrite (zoneOf_accepted c k x p Hp). simpl. by rewrite IH.
  - rewrite zoneOf_rejected; [exact IH|]. unfold accepts. by rewrite Hp.
Qed.

(** C6: when the properties of the feature at ordinal [i] fail
    validation, no output feature carries its identifier, while every
    feature whose properties pass is in the output, with its geometry,
    the identifier of its own ordinal and its parsed properties, at the
    position given by the number of accepted features before it; the
    output has nothing else, and its features stand in the order of the
    input ordinals they come from. *)
Theorem transform_drops_only_invalid
    (kmlCollection : KMLFeatureCollection) (center_id : AvalancheCenterID)
    (i : nat) (g : KMLFeature) (e : ZodError) :
  features kmlCollection !! i = Some g ->
  observationZonesPropertiesSchema_safeParse
    {| base_name := kml_name (properties g); base_center_id := center_id |}
  = Failure e ->
  exists out,
    outcome (transformKmlFeaturesToObservationZones kmlCollection center_id)
    = Returned out
    /\ (forall f, f ∈ features out -> id f <> (-100000 - Z.of_nat i)%Z)
    /\ (forall i' g' p',
          features kmlCollection !! i' = Some g' ->
          observationZonesPropertiesSchema_safeParse
            {| base_name := kml_name (properties g');
               base_center_id := center_id |} = Success p' ->
          features out
            !! length (List.filter (accepts center_id)
                                   (take i' (features kmlCollection)))
          = Some {| feature_type := TFeature; geometry := geometry g';
                    id := (-100000 - Z.of_nat i')%Z; properties := p' |})
    /\ length (features out)
       = length (List.filter (accepts center_id) (features kmlCollection))
    /\ forall j1 j2 f1 f2, (j1 < j2)%nat ->
         features out !! j1 = Some f1 -> features out !! j2 = Some f2 ->
         exists i1 i2 g1 g2 p1 p2, (i1 < i2)%nat
           /\ features kmlCollection !! i1 = Some g1
           /\ features kmlCollection !! i2 = Some g2
           /\ observationZonesPropertiesSchema_safeParse
                {| base_name := kml_name (properties g1);
                   base_center_id := center_id |} = Success p1
           /\ observationZonesPropertiesSchema_safeParse
                {| base_name := kml_name (properties g2);
                   base_center_id := center_id |} = Success p2
           /\ f1 = {| feature_type := TFeature; geometry := geometry g1;
                      id := (-100000 - Z.of_nat i1)%Z; properties := p1 |}
           /\ f2 = {| feature_type := TFeature; geometry := geometry g2;
                      id := (-100000 - Z.of_nat i2)%Z; properties := p2 |}.
Proof.
  intros Hi Hbad.
  assert (Hrej : accepts center_id g = false) by (unfold accepts; by rewrite Hbad).
  eexists. split; [apply transform_returns|]. simpl. from0.
  split; [|split; [|split]].
  - intros f Hf Hid. apply list_elem_of_lookup in Hf as [j Hj].
    apply zones_lookup in Hj as (i' & g' & Hi' & Hz & _).
    apply zoneOf_Some in Hz as (Hacc & Hid' & _).
    assert (i' = i) by lia. subst i'.
    rewrite Hi in Hi'. injection Hi' as <-. congruence.
  - intros i' g' p' Hi' Hp'. apply (zones_position _ _ 0 i' g' _ Hi').
    by apply zoneOf_accepted.
  - apply zones_count.
  - intros j1 j2 f1 f2 Hlt H1 H2.
    apply zones_lookup in H1 as (i1 & g1 & Hi1 & Hz1 & Hc1).
    apply zones_lookup in H2 as (i2 & g2 & Hi2 & Hz2 & Hc2).
    apply zoneOf_Some_inv in Hz1 as (p1 & Hp1 & Hf1).
    apply zoneOf_Some_inv in Hz2 as (p2 & Hp2 & Hf2).
    exists i1, i2, g1, g2, p1, p2. repeat split; try done.
    destruct (decide (i1 < i2)%nat) as [|Hge]; [done|].
    assert (Hle : (i2 <= i1)%nat) by lia.
    pose proof (filter_take_mono center_id (features kmlCollection) i2 i1 Hle).
    lia.
Qed.

Lemma zones_member (c : AvalancheCenterID) (l : list KMLFeature) (i : nat)
    (g : KMLFeature) (f : ObservationZonesFeature) :
  l !! i = Some g -> zoneOf c (i, g) = Some f ->
  f ∈ omap (zoneOf c) (numbered l).
Proof.
  intros Hi Hz. apply list_elem_of_omap. exists (i, g). split; [|done].
  apply list_elem_of_lookup. exists i.
  unfold numbered. by rewrite list_lookup_imap, Hi.
Qed.

(** ** parseKmlData and fetchAlternateObservationZones *)

Lemma outcome_try_returned {A} (body : M A) (handler : Exn -> M A) (a : A) :
  outcome body = Returned a -> outcome (try_catch body handler) = Returned a.
Proof. unfold try_catch. intros H. by rewrite H. Qed.

Lemma outcome_try_thrown {A} (body : M A) (handler : Exn -> M A) (e : Exn) :
  outcome body = Thrown e ->
  outcome (try_catch body handler) = outcome (handler e).
Proof. unfold try_catch. intros H. by rewrite H. Qed.

Lemma parseKmlData_invalid (response url text : jsstring) (tree : value)
    (e : ZodError) :
  xml2json response = Returned text ->
  JSON_parse text = Returned tree ->
  KMLFileSchema_safeParse tree = Failure e ->
  parseKmlData response url
  = mkM (Returned {| collection_type := TFeatureCollection; features := [] |})
        [Logged level_error (msg_invalid_kml e); SentryCaptured e url].
Proof.
  intros Hxml Hjson Hschema.
  unfold parseKmlData, mbind, M_bind, bind, lift. simpl.
  rewrite Hxml. simpl. rewrite Hjson. simpl. by rewrite Hschema.
Qed.

Lemma parseKmlData_valid (response url text : jsstring) (tree : value)
    (file : KMLFile) :
  xml2json response = Returned text ->
  JSON_parse text = Returned tree ->
  KMLFileSchema_safeParse tree = Success file ->
  parseKmlData response url
  = mkM (Returned {| collection_type := TFeatureCollection;
                     features :=
                       imap (fun index placemark => placemarkToFeature placemark index)
                            (Placemark (Folder (Document (kml file)))) |})
        [].
Proof.
  intros Hxml Hjson Hschema.
  unfold parseKmlData, mbind, M_bind, bind, lift. simpl.
  rewrite Hxml. simpl. rewrite Hjson. simpl. by rewrite Hschema.
Qed.

(** Once the text has been fetched, fetchAlternateObservationZones
    returns: what parseKmlData throws is caught. *)
Lemma fetchAlternateObservationZones_returns (url response : jsstring)
    (center_id : AvalancheCenterID) :
  outcome (safeFetch url) = Returned response ->
  exists out, outcome (fetchAlternateObservationZones url center_id) = Returned out.
Proof.
  intros Hfetch. unfold fetchAlternateObservationZones.
  rewrite outcome_logger, (outcome_bind _ _ _ Hfetch).
  destruct (outcome (parseKmlData response url)) as [coll|e] eqn:Hparse.
  - eexists. apply outcome_try_returned.
    rewrite (outcome_bind _ _ _ Hparse).
    rewrite (outcome_bind _ _ _ (transform_returns coll center_id)).
    by rewrite outcome_logger.
  - eexists. rewrite (outcome_try_thrown _ _ e).
    + by rewrite outcome_logger.
    + by apply outcome_bind_thrown.
Qed.

(** C2: when the tree read from the text fails KMLFileSchema,
    parseKmlData returns the empty feature collection after reporting
    the error, and fetchAlternateObservationZones, once it has the
    text, returns the empty collection as well; neither throws. *)
Theorem invalid_kml_yields_empty_collection
    (response url text : jsstring) (tree : value) (e : ZodError)
    (center_id : AvalancheCenterID) :
  xml2json response = Returned text ->
  JSON_parse text = Returned tree ->
  KMLFileSchema_safeParse tree = Failure e ->
  parseKmlData response url
  = mkM (Returned {| collection_type := TFeatureCollection; features := [] |})
        [Logged level_error (msg_invalid_kml e); SentryCaptured e url]
  /\ (outcome (safeFetch url) = Returned response ->
      outcome (fetchAlternateObservationZones url center_id)
      = Returned {| collection_type := TFeatureCollection; features := [] |}).
Proof.
  intros Hxml Hjson Hschema.
  pose proof (parseKmlData_invalid response url text tree e Hxml Hjson Hschema)
    as Hparse.
  split; [done|]. intros Hfetch.
  unfold fetchAlternateObservationZones.
  rewrite outcome_logger, (outcome_bind _ _ _ Hfetch).
  apply outcome_try_returned.
  rewrite (outcome_bind _ _
             {| collection_type := TFeatureCollection; features := [] |});
    [|by rewrite Hparse].
  rewrite (outcome_bind _ _ _ (transform_returns _ center_id)).
  by rewrite outcome_logger.
Qed.

(** C9: a placemark whose name has no text, or empty text, gets the
    name 'Unknown KML Zone'; a properties schema that accepts every
    non-empty name therefore keeps its feature. *)
Theorem unnamed_placemark_gets_default_name
    (response url text : jsstring) (tree : value) (file : KMLFile)
    (i : nat) (placemark : KMLPlacemark) :
  xml2json response = Returned text ->
  JSON_parse text = Returned tree ->
  KMLFileSchema_safeParse tree = Success file ->
  Placemark (Folder (Document (kml file))) !! i = Some placemark ->
  _text (name placemark) = None \/ _text (name placemark) = Some [] ->
  exists coll feature,
    outcome (parseKmlData response url) = Returned coll
    /\ features coll !! i = Some feature
    /\ kml_name (properties feature) = lit "Unknown KML Zone"
    /\ forall center_id,
         (forall n, n <> [] ->
            success (observationZonesPropertiesSchema_safeParse
                       {| base_name := n; base_center_id := center_id |}) = true) ->
         exists out zone,
           outcome (transformKmlFeaturesToObservationZones coll center_id)
           = Returned out
           /\ zone ∈ features out
           /\ id zone = (-100000 - Z.of_nat i)%Z
           /\ geometry zone = geometry feature.
Proof.
  intros Hxml Hjson Hschema Hi Hname.
  rewrite (parseKmlData_valid response url text tree file Hxml Hjson Hschema).
  do 2 eexists. split; [done|]. simpl.
  split; [by rewrite list_lookup_imap, Hi|].
  assert (Hdefault : or_default (_text (name placemark)) (lit "Unknown KML Zone")
                     = lit "Unknown KML Zone")
    by (by destruct Hname as [-> | ->]).
  split; [exact Hdefault|].
  intros center_id Hschema_ok.
  specialize (Hschema_ok (lit "Unknown KML Zone")).
  destruct (observationZonesPropertiesSchema_safeParse
              {| base_name := lit "Unknown KML Zone"; base_center_id := center_id |})
    as [p|] eqn:Hp; [|by discriminate Hschema_ok].
  do 2 eexists. split; [apply transform_returns|]. simpl.
  split; [|split].
  - eapply zones_member.
    + by rewrite list_lookup_imap, Hi.
    + apply zoneOf_accepted. simpl. rewrite Hdefault. exact Hp.
  - done.
  - done.
Qed.

(** C10: for a placemark with neither a Polygon nor a MultiGeometry,
    getCoordinateString is the empty string and parseKmlData emits, at
    the placemark's position, a feature whose geometry is a Polygon
    with the single empty ring. *)
Theorem placemark_without_geometry_is_kept
    (response url text : jsstring) (tree : value) (file : KMLFile)
    (i : nat) (placemark : KMLPlacemark) :
  xml2json response = Returned text ->
  JSON_parse text = Returned tree ->
  KMLFileSchema_safeParse tree = Success file ->
  Placemark (Folder (Document (kml file))) !! i = Some placemark ->
  Polygon placemark = None ->
  MultiGeometry placemark = None ->
  getCoordinateString placemark = []
  /\ exists coll feature,
       outcome (parseKmlData response url) = Returned coll
       /\ length (features coll)
          = length (Placemark (Folder (Document (kml file))))
       /\ features coll !! i = Some feature
       /\ id feature = Z.of_nat i
       /\ geometry feature
          = {| geometry_type := TPolygon; geometry_coordinates := [[]] |}.
Proof.
  intros Hxml Hjson Hschema Hi Hpoly Hmulti.
  assert (Hcoord : getCoordinateString placemark = [])
    by (unfold getCoordinateString; by rewrite Hpoly, Hmulti).
  split; [exact Hcoord|].
  rewrite (parseKmlData_valid response url text tree file Hxml Hjson Hschema).
  do 2 eexists. split; [done|]. simpl.
  split; [apply length_imap|].
  split; [by rewrite list_lookup_imap, Hi|].
  split; [done|]. simpl. by rewrite Hcoord.
Qed.

(** ** The forecast schema and fetchNWACWeatherForecast *)

Lemma merge_failure_l {A B C} (f : A -> B -> C) (r1 : SafeParseReturn A)
    (r2 : SafeParseReturn B) :
  success r1 = false -> success (merge f r1 r2) = false.
Proof. by destruct r1, r2. Qed.

Lemma merge_failure_r {A B C} (f : A -> B -> C) (r1 : SafeParseReturn A)
    (r2 : SafeParseReturn B) :
  success r2 = false -> success (merge f r1 r2) = false.
Proof. by destruct r1, r2. Qed.

(** An object fails as soon as one key of its shape fails. *)
Lemma parse_object_field_fails (shape : list (jsstring * schema))
    (k : jsstring) (sk : schema) (p : list path_elem) (v : value) :
  (k, sk) ∈ shape ->
  success (parse sk (p ++ [PKey k]) (get v k)) = false ->
  success (parse (z_object shape) p v) = false.
Proof.
  intros Hin Hfail. destruct v as [| | | | | |fields]; try done.
  simpl.
  match goal with
  | |- success (match ?go shape with _ => _ end) = false =>
      assert (Hgo : success (go shape) = false)
  end.
  { induction shape as [|[k' sk'] shape IH]; [by apply elem_of_nil in Hin|].
    apply elem_of_cons in Hin as [[= <- <-]|Hin].
    - apply merge_failure_l. exact Hfail.
    - apply merge_failure_r. by apply IH. }
  match goal with
  | |- success (match ?r with _ => _ end) = false => by destruct r
  end.
Qed.

(** A successful object parse yields an object. *)
Lemma parse_object_success (shape : list (jsstring * schema))
    (p : list path_elem) (v d : value) :
  parse (z_object shape) p v = Success d -> exists ds, d = VObj ds.
Proof.
  destruct v as [| | | | | |fields]; try done. simpl.
  match goal with
  | |- match ?r with _ => _ end = _ -> _ => destruct r; [|done]
  end.
  intros [= <-]. by eexists.
Qed.

Local Ltac in_shape :=
  repeat first [ apply list_elem_of_here | apply list_elem_of_further ].

(** A response without [mountain_weather_forecast.creation_date] fails
    the schema. *)
Lemma missing_creation_date_fails (data : value) :
  get (get (get data (lit "objects")) (lit "mountain_weather_forecast"))
      (lit "creation_date") = VUndefined ->
  success (safeParse nwacWeatherForecastMetaSchema data) = false.
Proof.
  intros Hmissing.
  unfold safeParse, nwacWeatherForecastMetaSchema.
  eapply (parse_object_field_fails _ (lit "objects")); [in_shape|].
  unfold nwacWeatherForecastSchema.
  eapply (parse_object_field_fails _ (lit "mountain_weather_forecast")); [in_shape|].
  eapply (parse_object_field_fails _ (lit "creation_date")); [in_shape|].
  by rewrite Hmissing.
Qed.

Lemma assoc_set_key_eq (k : jsstring) (present : bool) (v : value)
    (rest : list (jsstring * value)) :
  v <> VUndefined -> assoc k (set_key k present v rest) = Some v.
Proof.
  intros Hv. destruct v; try done; simpl; by rewrite bool_decide_eq_true_2.
Qed.

Lemma assoc_set_key_ne (k k' : jsstring) (present : bool) (v : value)
    (rest : list (jsstring * value)) :
  k <> k' -> assoc k (set_key k' present v rest) = assoc k rest.
Proof.
  intros Hne. destruct v, present; simpl; by rewrite ?bool_decide_eq_false_2.
Qed.

(** In a parsed object, a key of the shape holds what the schema of
    that key yields on the input's value for the key. *)
Lemma parse_object_key (shape : list (jsstring * schema)) (p : list path_elem)
    (v d : value) (k : jsstring) (sk : schema) :
  parse (z_object shape) p v = Success d ->
  NoDup shape.*1 ->
  (k, sk) ∈ shape ->
  exists dk, parse sk (p ++ [PKey k]) (get v k) = Success dk
    /\ (dk <> VUndefined -> get d k = dk).
Proof.
  intros Hparse Hnodup Hin. destruct v as [| | | | | |fields]; try done.
  simpl in Hparse.
  match type of Hparse with
  | match ?go shape with _ => _ end = _ =>
      assert (Hgo : forall ds, go shape = Success ds ->
                exists dk, parse sk (p ++ [PKey k]) (get (VObj fields) k) = Success dk
                  /\ (dk <> VUndefined -> assoc k ds = Some dk));
      [clear Hparse | destruct (go shape) as [ds|] eqn:Hds; [|done]]
  end.
  { induction shape as [|[k' sk'] shape IH]; [by apply elem_of_nil in Hin|].
    intros ds Hds. apply list.NoDup_cons in Hnodup as [Hfresh Hnodup].
    match type of Hds with
    | merge _ ?r1 ?r2 = _ =>
        destruct r1 as [d'|] eqn:Hd'; destruct r2 as [ds'|] eqn:Hds';
        simpl in Hds; try discriminate
    end.
    injection Hds as <-.
    apply elem_of_cons in Hin as [[= <- <-]|Hin].
    - exists d'. split; [exact Hd'|]. apply assoc_set_key_eq.
    - destruct (IH Hnodup Hin ds' eq_refl) as (dk & Hdk & Hassoc).
      exists dk. split; [exact Hdk|]. intros Hdef.
      rewrite assoc_set_key_ne; [by apply Hassoc|].
      intros <-. apply Hfresh. simpl.
      apply list_elem_of_fmap. by exists (k, sk). }
  injection Hparse as <-.
  destruct (Hgo ds eq_refl) as (dk & Hdk & Hassoc).
  exists dk. split; [exact Hdk|]. intros Hdef. simpl. by rewrite Hassoc.
Qed.

(** On a response that passes the schema, the parsed [objects] is what
    nwacWeatherForecastSchema yields on the response's [objects]. *)
Lemma parsed_objects (data parsed : value) :
  safeParse nwacWeatherForecastMetaSchema data = Success parsed ->
  parse nwacWeatherForecastSchema [PKey (lit "objects")] (get data (lit "objects"))
  = Success (get parsed (lit "objects")).
Proof.
  intros Hparse. unfold safeParse, nwacWeatherForecastMetaSchema in Hparse.
  eapply (parse_object_key _ _ _ _ (lit "objects")) in Hparse as (dk & Hdk & Hget).
  - simpl app in Hdk. rewrite Hdk. f_equal. symmetry. apply Hget.
    apply parse_object_success in Hdk as [ds ->]. done.
  - apply (bool_decide_unpack _). vm_compute. reflexivity.
  - in_shape.
Qed.

(** C3: a response that fails the forecast schema, as one without
    [mountain_weather_forecast.creation_date] does, makes
    fetchNWACWeatherForecast throw the ZodError, which it reports
    first and which differs from every AxiosError; a response that
    passes makes it return the parsed [objects]; a transport failure
    is thrown on as it is. *)
Theorem fetchNWACWeatherForecast_validates
    (nwacHost : jsstring) (zone : Z) (requestedTime : Date) (data : value) :
  outcome (axios_get (nwacHost ++ lit "/api/v1/mountain-weather-region-forecast")
             {| zone_id := zone;
                published_datetime := toDateTimeInterfaceATOM requestedTime |})
  = Returned data ->
  (get (get (get data (lit "objects")) (lit "mountain_weather_forecast"))
       (lit "creation_date") = VUndefined ->
   success (safeParse nwacWeatherForecastMetaSchema data) = false)
  /\ (forall e, safeParse nwacWeatherForecastMetaSchema data = Failure e ->
        outcome (fetchNWACWeatherForecast nwacHost zone requestedTime)
        = Thrown (ZodErr e)
        /\ SentryCaptured
             e (nwacHost ++ lit "/api/v1/mountain-weather-region-forecast")
           ∈ events (fetchNWACWeatherForecast nwacHost zone requestedTime)
        /\ forall info, ZodErr e <> AxiosError info)
  /\ (forall parsed, safeParse nwacWeatherForecastMetaSchema data = Success parsed ->
        outcome (fetchNWACWeatherForecast nwacHost zone requestedTime)
        = Returned (get parsed (lit "objects"))
        /\ parse nwacWeatherForecastSchema [PKey (lit "objects")]
                 (get data (lit "objects"))
           = Success (get parsed (lit "objects"))).
Proof.
  intros Haxios.
  split; [apply missing_creation_date_fails|]. split.
  - intros e He. unfold fetchNWACWeatherForecast.
    unfold mbind, M_bind, bind. rewrite Haxios. simpl. rewrite He. simpl.
    split; [done|]. split; [|done].
    apply elem_of_app. right. simpl. in_shape.
  - intros parsed Hparsed. split; [|by apply parsed_objects].
    unfold fetchNWACWeatherForecast.
    rewrite (outcome_bind _ _ _ Haxios). by rewrite Hparsed.
Qed.

(** A transport failure of [axios.get] is what the caller gets. *)
Lemma fetchNWACWeatherForecast_transport_failure
    (nwacHost : jsstring) (zone : Z) (requestedTime : Date) (failure : Exn) :
  outcome (axios_get (nwacHost ++ lit "/api/v1/mountain-weather-region-forecast")
             {| zone_id := zone;
                published_datetime := toDateTimeInterfaceATOM requestedTime |})
  = Thrown failure ->
  outcome (fetchNWACWeatherForecast nwacHost zone requestedTime) = Thrown failure.
Proof. intros H. unfold fetchNWACWeatherForecast. by apply outcome_bind_thrown. Qed.

(** ** Query options *)

(** C8: in each of the four query configurations the staleness horizon
    is at most the retention horizon, whatever the client's default
    [cacheTime] is; the forecast query sets one hour and a day, the
    alternate-zones query keeps its entry forever and has the default
    zero staleness, and the alternate-zones prefetch sets a day and
    forever. *)
Theorem staleness_within_retention (defaultCacheTime : duration) :
  Forall (fun o => duration_le (staleness_horizon o)
                               (retention_horizon defaultCacheTime o))
         all_query_options
  /\ staleTime useNWACWeatherForecast_options = Some (Millis 3600000)
  /\ cacheTime useNWACWeatherForecast_options = Some (Millis 86400000)
  /\ staleTime useAlternateObservationZones_options = None
  /\ staleness_horizon useAlternateObservationZones_options = Millis 0
  /\ cacheTime useAlternateObservationZones_options = Some Forever
  /\ staleTime prefetchAlternateObservationZones_options = Some (Millis 86400000)
  /\ cacheTime prefetchAlternateObservationZones_options = Some Forever.
Proof.
  split.
  - unfold all_query_options. repeat constructor.
    + vm_compute. congruence.
    + destruct defaultCacheTime; [apply N.le_0_l | exact I].
  - repeat split; reflexivity.
Qed.

(** ** More on the KML pipeline *)

Lemma events_bind {A B} (m : M A) (k : A -> M B) (a : A) :
  outcome m = Returned a -> events (m ≫= k) = events m ++ events (k a).
Proof. unfold mbind, M_bind, bind. by intros ->. Qed.

Lemma events_transformFeature (c : AvalancheCenterID) (g : KMLFeature) (i : nat) :
  events (transformFeature c g i) = option_list (rejectionOf c (i, g)).
Proof.
  unfold transformFeature, rejectionOf. simpl.
  by destruct (observationZonesPropertiesSchema_safeParse _).
Qed.

Lemma events_mapM_from_transformFeature (c : AvalancheCenterID)
    (l : list KMLFeature) (k : nat) :
  events (mapM_from (transformFeature c) k l)
  = omap (rejectionOf c) (numbered_from k l).
Proof.
  revert k. induction l as [|g l IH]; intros k; [done|].
  rewrite numbered_from_cons. simpl mapM_from.
  rewrite (events_bind _ _ _ (transformFeature_returns c g k)).
  rewrite (events_bind _ _ _ (mapM_from_transformFeature c l (S k))).
  rewrite events_transformFeature, IH. csimpl.
  destruct (rejectionOf c (k, g)); simpl; by rewrite app_nil_r.
Qed.

Lemma transform_events (coll : KMLFeatureCollection) (c : AvalancheCenterID) :
  events (transformKmlFeaturesToObservationZones coll c)
  = omap (rejectionOf c) (numbered (features coll)).
Proof.
  unfold transformKmlFeaturesToObservationZones, mapM.
  rewrite (events_bind _ _ _ (mapM_from_transformFeature c _ 0)).
  rewrite events_mapM_from_transformFeature. simpl. by rewrite app_nil_r.
Qed.

Lemma zone_or_rejection (c : AvalancheCenterID) (l : list (nat * KMLFeature)) :
  (length (omap (zoneOf c) l) + length (omap (rejectionOf c) l) = length l)%nat.
Proof.
  induction l as [|[i g] l IH]; [done|]. csimpl.
  unfold zoneOf at 1, rejectionOf at 1, transformFeature. simpl.
  destruct (observationZonesPropertiesSchema_safeParse _); simpl; lia.
Qed.

(** X1: every input feature is either in the output or has left one
    error record in the log, and the record of a rejected feature
    carries its ordinal and the validation error. *)
Theorem transform_logs_each_drop
    (kmlCollection : KMLFeatureCollection) (center_id : AvalancheCenterID) :
  exists out,
    outcome (transformKmlFeaturesToObservationZones kmlCollection center_id)
    = Returned out
    /\ (length (features out)
        + length (events (transformKmlFeaturesToObservationZones
                            kmlCollection center_id))
        = length (features kmlCollection))%nat
    /\ (forall i g e, features kmlCollection !! i = Some g ->
          observationZonesPropertiesSchema_safeParse
            {| base_name := kml_name (properties g); base_center_id := center_id |}
          = Failure e ->
          Logged level_error (msg_invalid_properties i e)
          ∈ events (transformKmlFeaturesToObservationZones kmlCollection center_id))
    /\ (forall ev,
          ev ∈ events (transformKmlFeaturesToObservationZones kmlCollection center_id) ->
          exists i g e, features kmlCollection !! i = Some g
            /\ observationZonesPropertiesSchema_safeParse
                 {| base_name := kml_name (properties g);
                    base_center_id := center_id |} = Failure e
            /\ ev = Logged level_error (msg_invalid_properties i e)).
Proof.
  eexists. split; [apply transform_returns|]. simpl.
  rewrite transform_events. split; [|split].
  - rewrite zone_or_rejection. unfold numbered. by rewrite length_imap.
  - intros i g e Hi He. apply list_elem_of_omap. exists (i, g). split.
    + apply list_elem_of_lookup. exists i.
      unfold numbered. by rewrite list_lookup_imap, Hi.
    + unfold rejectionOf. simpl. by rewrite He.
  - intros ev Hev. apply list_elem_of_omap in Hev as ([i g] & Hin & Hrej).
    apply list_elem_of_lookup in Hin as [j Hj].
    unfold numbered in Hj. rewrite list_lookup_imap in Hj.
    destruct (features kmlCollection !! j) as [g'|] eqn:Hg; [|done].
    simpl in Hj. injection Hj as <- <-.
    unfold rejectionOf in Hrej. simpl in Hrej.
    destruct (observationZonesPropertiesSchema_safeParse _) as [|e] eqn:He; [done|].
    injection Hrej as <-. by exists j, g', e.
Qed.

Lemma zones_all_accepted (c : AvalancheCenterID) (l : list KMLFeature) (k : nat) :
  Forall (fun g => accepts c g = true) l ->
  length (omap (zoneOf c) (numbered_from k l)) = length l
  /\ forall i g, l !! i = Some g ->
       omap (zoneOf c) (numbered_from k l) !! i = zoneOf c ((k + i)%nat, g).
Proof.
  revert k. induction l as [|x l IH]; intros k Hall; [done|].
  apply list.Forall_cons in Hall as [Hx Hall].
  rewrite numbered_from_cons. csimpl.
  unfold accepts in Hx.
  destruct (observationZonesPropertiesSchema_safeParse
              {| base_name := kml_name (properties x); base_center_id := c |})
    as [p|] eqn:Hp; [|done].
  rewrite (zoneOf_accepted c k x p Hp).
  destruct (IH (S k) Hall) as [Hlen Hlook]. split.
  - simpl. by rewrite Hlen.
  - intros [|i] g Hi; simpl in Hi.
    + injection Hi as <-. by rewrite Nat.add_0_r, (zoneOf_accepted c k x p Hp).
    + simpl. rewrite (Hlook i g Hi). do 2 f_equal. lia.
Qed.

Lemma events_logger {B} (level : LogLevel) (msg : LogMessage) (k : unit -> M B) :
  events (logger level msg ≫= k) = Logged level msg :: events (k tt).
Proof. done. Qed.

Lemma events_try_thrown {A} (body : M A) (handler : Exn -> M A) (e : Exn) :
  outcome body = Thrown e ->
  events (try_catch body handler) = events body ++ events (handler e).
Proof. unfold try_catch. intros H. by rewrite H. Qed.

Lemma fetch_after_parse_throw (url response : jsstring)
    (center_id : AvalancheCenterID) (e : Exn) :
  outcome (safeFetch url) = Returned response ->
  outcome (parseKmlData response url) = Thrown e ->
  outcome (fetchAlternateObservationZones url center_id)
  = Returned {| collection_type := TFeatureCollection; features := [] |}
  /\ Logged level_error (msg_error_parsing e)
     ∈ events (fetchAlternateObservationZones url center_id).
Proof.
  intros Hfetch Hparse. unfold fetchAlternateObservationZones. split.
  - rewrite outcome_logger, (outcome_bind _ _ _ Hfetch).
    rewrite (outcome_try_thrown _ _ e); [done|].
    by apply outcome_bind_thrown.
  - rewrite events_logger, (events_bind _ _ _ Hfetch).
    rewrite (events_try_thrown _ _ e); [|by apply outcome_bind_thrown].
    apply list_elem_of_further. apply elem_of_app. right.
    apply elem_of_app. right. simpl. apply list_elem_of_here.
Qed.

(** X2: once the text is fetched, fetchAlternateObservationZones
    returns: when parseKmlData throws, the error is logged and the
    result is the empty collection; otherwise the result is that of
    transformKmlFeaturesToObservationZones on the parsed features. *)
Theorem fetchAlternateObservationZones_catches
    (url response : jsstring) (center_id : AvalancheCenterID) :
  outcome (safeFetch url) = Returned response ->
  exists out,
    outcome (fetchAlternateObservationZones url center_id) = Returned out
    /\ (forall e, outcome (parseKmlData response url) = Thrown e ->
          features out = []
          /\ Logged level_error (msg_error_parsing e)
             ∈ events (fetchAlternateObservationZones url center_id))
    /\ (forall coll, outcome (parseKmlData response url) = Returned coll ->
          outcome (transformKmlFeaturesToObservationZones coll center_id)
          = Returned out).
Proof.
  intros Hfetch.
  destruct (outcome (parseKmlData response url)) as [coll|e] eqn:Hparse.
  - eexists. split; [|split; [done|]].
    + unfold fetchAlternateObservationZones.
      rewrite outcome_logger, (outcome_bind _ _ _ Hfetch).
      apply outcome_try_returned.
      rewrite (outcome_bind _ _ _ Hparse).
      rewrite (outcome_bind _ _ _ (transform_returns coll center_id)).
      by rewrite outcome_logger.
    + intros coll' [= <-]. apply transform_returns.
  - destruct (fetch_after_parse_throw url response center_id e Hfetch Hparse)
      as [Hout Hlog].
    eexists. split; [exact Hout|]. split; [|done].
    intros e' [= <-]. by split.
Qed.

(** X3: parseKmlData does not catch what xml2json or JSON.parse throw;
    fetchAlternateObservationZones does, logs it and returns the empty
    collection. *)
Theorem unreadable_kml_yields_empty_collection
    (url response : jsstring) (center_id : AvalancheCenterID) (e : Exn) :
  xml2json response = Thrown e
  \/ (exists text, xml2json response = Returned text /\ JSON_parse text = Thrown e) ->
  parseKmlData response url = mkM (Thrown e) []
  /\ (outcome (safeFetch url) = Returned response ->
      outcome (fetchAlternateObservationZones url center_id)
      = Returned {| collection_type := TFeatureCollection; features := [] |}
      /\ Logged level_error (msg_error_parsing e)
         ∈ events (fetchAlternateObservationZones url center_id)).
Proof.
  intros Hthrow.
  assert (Hparse : parseKmlData response url = mkM (Thrown e) []).
  { unfold parseKmlData, mbind, M_bind, bind, lift. simpl.
    destruct Hthrow as [-> | (text & -> & Hjson)]; [done|].
    simpl. by rewrite Hjson. }
  split; [exact Hparse|]. intros Hfetch.
  apply (fetch_after_parse_throw url response center_id e Hfetch).
  by rewrite Hparse.
Qed.

(** X4: the fetch is awaited outside the try block: when safeFetch
    rejects, fetchAlternateObservationZones rejects with the same error
    and has logged nothing but its first debug record. *)
Theorem fetchAlternateObservationZones_rejects
    (url : jsstring) (center_id : AvalancheCenterID) (e : Exn) :
  outcome (safeFetch url) = Thrown e ->
  fetchAlternateObservationZones url center_id
  = mkM (Thrown e)
        (Logged level_debug (msg_text (lit "Fetching alternate observation zones"))
         :: events (safeFetch url)).
Proof.
  intros Hfetch. unfold fetchAlternateObservationZones.
  unfold mbind, M_bind, bind. simpl. by rewrite Hfetch.
Qed.

Lemma coord_pair_length (token : jsstring) : length (coord_pair token) = 2%nat.
Proof. done. Qed.

Lemma parseCoordinates_pairs (s : jsstring) (pair : list number) :
  pair ∈ parseCoordinates s -> length pair = 2%nat.
Proof.
  rewrite parseCoordinates_tokens. intros H.
  apply list_elem_of_fmap in H as (token & -> & _). apply coord_pair_length.
Qed.

(** X5: whatever the document, a collection that parseKmlData returns
    has features numbered by position, each with a non-empty name and a
    Polygon geometry of exactly one ring, whose points all have two
    components. *)
Theorem parseKmlData_features_wellformed
    (response url : jsstring) (coll : KMLFeatureCollection)
    (i : nat) (f : KMLFeature) :
  outcome (parseKmlData response url) = Returned coll ->
  features coll !! i = Some f ->
  id f = Z.of_nat i
  /\ kml_name (properties f) <> []
  /\ feature_type f = TFeature
  /\ geometry_type (geometry f) = TPolygon
  /\ exists ring, geometry_coordinates (geometry f) = [ring]
       /\ forall pair, pair ∈ ring -> length pair = 2%nat.
Proof.
  unfold parseKmlData, mbind, M_bind, bind, lift. simpl.
  destruct (xml2json response) as [text|]; simpl; [|done].
  destruct (JSON_parse text) as [tree|]; simpl; [|done].
  destruct (KMLFileSchema_safeParse tree) as [file|]; simpl.
  - intros [= <-]. simpl. rewrite list_lookup_imap.
    destruct (Placemark (Folder (Document (kml file))) !! i) as [pm|]; [|done].
    simpl. intros [= <-]. simpl. repeat split.
    + unfold or_default. by destruct (_text (name pm)) as [[|c r]|].
    + eexists. split; [done|]. apply parseCoordinates_pairs.
  - intros [= <-]. done.
Qed.

(** X6: when the properties schema accepts every non-empty name for the
    center, no placemark of a valid document is lost: the fetch returns
    one feature per placemark, in document order, the one at position
    [i] with identifier [-100000 - i] and the ring parsed from that
    placemark's coordinate string. *)
Theorem pipeline_keeps_every_placemark
    (url response text : jsstring) (tree : value) (file : KMLFile)
    (center_id : AvalancheCenterID) :
  outcome (safeFetch url) = Returned response ->
  xml2json response = Returned text ->
  JSON_parse text = Returned tree ->
  KMLFileSchema_safeParse tree = Success file ->
  (forall n, n <> [] ->
     success (observationZonesPropertiesSchema_safeParse
                {| base_name := n; base_center_id := center_id |}) = true) ->
  exists out,
    outcome (fetchAlternateObservationZones url center_id) = Returned out
    /\ length (features out) = length (Placemark (Folder (Document (kml file))))
    /\ forall i placemark,
         Placemark (Folder (Document (kml file))) !! i = Some placemark ->
         exists zone, features out !! i = Some zone
           /\ id zone = (-100000 - Z.of_nat i)%Z
           /\ geometry zone
              = {| geometry_type := TPolygon;
                   geometry_coordinates :=
                     [parseCoordinates (getCoordinateString placemark)] |}.
Proof.
  intros Hfetch Hxml Hjson Hschema Hnames.
  pose proof (parseKmlData_valid response url text tree file Hxml Hjson Hschema)
    as Hparse.
  set (placemarks := Placemark (Folder (Document (kml file)))) in *.
  set (kmlFeatures :=
         imap (fun index placemark => placemarkToFeature placemark index) placemarks)
    in *.
  assert (Hall : Forall (fun g => accepts center_id g = true) kmlFeatures).
  { apply Forall_lookup. intros i g Hg. unfold kmlFeatures in Hg.
    rewrite list_lookup_imap in Hg.
    destruct (placemarks !! i) as [pm|]; [|done]. injection Hg as <-.
    unfold accepts. simpl. apply Hnames.
    unfold or_default. by destruct (_text (name pm)) as [[|c r]|]. }
  destruct (zones_all_accepted center_id kmlFeatures 0 Hall) as [Hlen Hlook].
  eexists. split; [|split].
  - unfold fetchAlternateObservationZones.
    rewrite outcome_logger, (outcome_bind _ _ _ Hfetch).
    apply outcome_try_returned.
    rewrite (outcome_bind _ _ _ (f_equal outcome Hparse)).
    rewrite (outcome_bind _ _ _ (transform_returns _ center_id)).
    by rewrite outcome_logger.
  - simpl. from0. fold kmlFeatures. rewrite Hlen.
    unfold kmlFeatures. apply length_imap.
  - intros i pm Hi. simpl. from0. fold kmlFeatures.
    assert (Hg : kmlFeatures !! i = Some (placemarkToFeature pm i))
      by (unfold kmlFeatures; by rewrite list_lookup_imap, Hi).
    rewrite (Hlook i _ Hg). simpl.
    destruct (zoneOf center_id (i, placemarkToFeature pm i)) as [zone|] eqn:Hz.
    + exists zone. split; [done|].
      apply zoneOf_Some in Hz as (_ & Hid & Hgeo). by rewrite Hid, Hgeo.
    + exfalso. rewrite Forall_lookup in Hall. specialize (Hall i _ Hg).
      unfold accepts in Hall.
      destruct (observationZonesPropertiesSchema_safeParse
                  {| base_name := kml_name (properties (placemarkToFeature pm i));
                     base_center_id := center_id |}) as [p|] eqn:Hp; [|done].
      by rewrite (zoneOf_accepted center_id i _ p Hp) in Hz.
Qed.

(** X18: the identifiers of the output are all at most [-100000], so
    negative, and no two output features share one. *)
Theorem transform_ids_negative_and_distinct
    (kmlCollection : KMLFeatureCollection) (center_id : AvalancheCenterID) :
  exists out,
    outcome (transformKmlFeaturesToObservationZones kmlCollection center_id)
    = Returned out
    /\ (forall f, f ∈ features out -> (id f <= -100000)%Z)
    /\ NoDup (id <$> features out).
Proof.
  eexists. split; [apply transform_returns|]. simpl. from0. split.
  - intros f Hf. apply list_elem_of_lookup in Hf as [j Hj].
    apply zones_lookup in Hj as (i & g & _ & Hz & _).
    apply zoneOf_Some in Hz as (_ & -> & _). lia.
  - apply NoDup_alt. intros j1 j2 x H1 H2.
    rewrite list_lookup_fmap in H1, H2.
    destruct (omap (zoneOf center_id) (numbered_from 0 (features kmlCollection)) !! j1)
      as [f1|] eqn:Hf1; [|done].
    destruct (omap (zoneOf center_id) (numbered_from 0 (features kmlCollection)) !! j2)
      as [f2|] eqn:Hf2; [|done].
    simpl in H1, H2. injection H1 as H1. injection H2 as H2.
    apply zones_lookup in Hf1 as (i1 & g1 & _ & Hz1 & Hc1).
    apply zones_lookup in Hf2 as (i2 & g2 & _ & Hz2 & Hc2).
    apply zoneOf_Some in Hz1 as (_ & Hid1 & _).
    apply zoneOf_Some in Hz2 as (_ & Hid2 & _).
    assert (i1 = i2) by lia. subst i2. congruence.
Qed.

(** ** More on parseCoordinates *)

Lemma tokens_ws_prefix (w s : jsstring) :
  forallb is_ws w = true -> tokens (w ++ s) = tokens s.
Proof.
  induction w as [|c w IH]; [done|]. simpl.
  intros H. apply andb_true_iff in H as [Hc Hw]. rewrite Hc. by apply IH.
Qed.

Lemma tokens_app (s1 w s2 : jsstring) :
  w <> [] -> forallb is_ws w = true ->
  tokens (s1 ++ w ++ s2) = tokens s1 ++ tokens s2.
Proof.
  intros Hne Hw. induction s1 as [|c r IH]; [simpl; by apply tokens_ws_prefix|].
  cbn [app]. simpl tokens. destruct (is_ws c); [exact IH|].
  destruct r as [|c' r'].
  - cbn [app]. rewrite tokens_ws_prefix by done.
    destruct w as [|w0 w']; [done|]. simpl in Hw.
    apply andb_true_iff in Hw as [Hw0 _]. simpl. by rewrite Hw0.
  - rewrite IH. cbn [app starts_token].
    destruct (negb (is_ws c')) eqn:Hc'; [|done].
    assert (Hst : starts_token (c' :: r') = true) by exact Hc'.
    apply tokens_starts_token in Hst. by destruct (tokens (c' :: r')).
Qed.

Lemma tokens_word (s : jsstring) :
  s <> [] -> forallb (fun c => negb (is_ws c)) s = true -> tokens s = [s].
Proof.
  induction s as [|c r IH]; [done|]. intros _ H. simpl in H.
  apply andb_true_iff in H as [Hc Hr]. apply negb_true_iff in Hc.
  simpl. rewrite Hc. destruct r as [|c' r']; [done|].
  simpl in Hr. apply andb_true_iff in Hr as [Hc' Hr']. simpl starts_token.
  rewrite Hc'. rewrite IH; [done|done|]. simpl. by rewrite Hc', Hr'.
Qed.

(** X7: whitespace only separates: text on either side of a non-empty
    run of whitespace parses by itself, and the two results are
    concatenated; so leading and trailing whitespace and the length of
    the runs make no difference. *)
Theorem parseCoordinates_app (s1 w s2 : jsstring) :
  w <> [] -> forallb is_ws w = true ->
  parseCoordinates (s1 ++ w ++ s2) = parseCoordinates s1 ++ parseCoordinates s2.
Proof.
  intros Hne Hw. rewrite !parseCoordinates_tokens, tokens_app by done.
  apply fmap_app.
Qed.

(** X8: the output is free of NaN exactly when every
    whitespace-separated token has at least two comma-separated
    components of which the first two are numeric. *)
Theorem parseCoordinates_NaN_free (s : jsstring) :
  (forall pair n, pair ∈ parseCoordinates s -> n ∈ pair -> n <> NaN)
  <-> Forall (fun token => is_number_pair token = true) (tokens s).
Proof.
  rewrite parseCoordinates_tokens. split.
  - intros H. apply list.Forall_forall. intros token Ht.
    destruct (coord_pair_NaN token) as (lon & lat & Hpair & [Hnan _]).
    destruct (is_number_pair token); [done|]. exfalso.
    assert (Hin : coord_pair token ∈ coord_pair <$> tokens s)
      by (by apply list_elem_of_fmap_2).
    rewrite Hpair in Hin.
    destruct (Hnan eq_refl) as [-> | ->].
    + by apply (H _ NaN Hin); [apply list_elem_of_here|].
    + by apply (H _ NaN Hin);
        [apply list_elem_of_further, list_elem_of_here|].
  - intros Hall pair n Hpair Hn ->.
    apply list_elem_of_fmap in Hpair as (token & -> & Ht).
    rewrite list.Forall_forall in Hall. specialize (Hall token Ht).
    destruct (coord_pair_NaN token) as (lon & lat & Hp & [_ Hnan]).
    rewrite Hp in Hn.
    assert (lon = NaN \/ lat = NaN) as Hor.
    { apply elem_of_cons in Hn as [->|Hn]; [by left|].
      apply elem_of_cons in Hn as [->|Hn]; [by right|].
      by apply elem_of_nil in Hn. }
    rewrite (Hnan Hor) in Hall. discriminate.
Qed.

Lemma digit_code (d : N) :
  d < 10 ->
  is_digit (d + 48) = true /\ is_ws (d + 48) = false /\ d + 48 - 48 = d
  /\ (d + 48 =? comma) = false /\ (73 =? d + 48) = false
  /\ (d + 48 =? 43) = false /\ (d + 48 =? 45) = false.
Proof.
  intros H.
  assert (Hcases : d = 0 \/ d = 1 \/ d = 2 \/ d = 3 \/ d = 4 \/ d = 5 \/ d = 6
                   \/ d = 7 \/ d = 8 \/ d = 9) by lia.
  repeat (destruct Hcases as [-> | Hcases]; [by vm_compute|]).
  subst d. by vm_compute.
Qed.

Lemma span_digits_cons (c : N) (r : jsstring) :
  span_digits (c :: r)
  = if is_digit c
    then let '(ds, rest) := span_digits r in ((c - 48) :: ds, rest)
    else ([], c :: r).
Proof. done. Qed.

Lemma span_digits_text (ds : list N) (rest : jsstring) :
  Forall (fun x => x < 10) ds ->
  match rest with c :: _ => is_digit c | [] => false end = false ->
  span_digits (digits_text ds ++ rest) = (ds, rest).
Proof.
  intros Hds Hrest. induction Hds as [|d ds Hd _ IH].
  - destruct rest as [|c r]; [done|]. simpl in *. by rewrite Hrest.
  - destruct (digit_code d Hd) as (Hdig & _ & Hsub & _).
    change (digits_text (d :: ds) ++ rest)
      with ((d + 48) :: (digits_text ds ++ rest)).
    by rewrite span_digits_cons, Hdig, IH, Hsub.
Qed.

(** parseFloat reads back the text of a decimal. *)
Lemma parseFloat_decimal_text (d : decimal) :
  wf_decimal d -> parseFloat (decimal_text d) = decimal_number d.
Proof.
  destruct d as [neg ip fp]. intros (Hne & Hip & Hfp). simpl in *.
  unfold decimal_text, decimal_number. simpl.
  destruct ip as [|i0 ip]; [done|].
  apply list.Forall_cons in Hip as [Hi0 Hip].
  destruct (digit_code i0 Hi0) as (Hdig & Hws & Hsub & _ & HI & Hplus & Hminus).
  set (tail := match fp with [] => [] | _ :: _ => 46 :: digits_text fp end).
  assert (Hunsigned : forall sign,
    parseUnsigned sign (digits_text (i0 :: ip) ++ tail)
    = mkDec sign (digits_value ((i0 :: ip) ++ fp)) (- Z.of_nat (length fp))%Z).
  { intros sign. unfold parseUnsigned.
    assert (Hinf : strip_prefix (lit "Infinity") (digits_text (i0 :: ip) ++ tail) = None).
    { cbn [digits_text fmap list_fmap app].
      change (lit "Infinity") with (73 :: lit "nfinity").
      cbn [strip_prefix]. by rewrite HI. }
    rewrite Hinf.
    rewrite (span_digits_text (i0 :: ip) tail);
      [|by constructor|unfold tail; by destruct fp].
    unfold tail. destruct fp as [|f0 fp].
    - simpl. by rewrite app_nil_r.
    - change (46 =? 46) with true. cbv iota.
      replace (digits_text (f0 :: fp)) with (digits_text (f0 :: fp) ++ [])
        by apply app_nil_r.
      rewrite (span_digits_text (f0 :: fp) []); [|done|done].
      simpl parseExponent. by rewrite Z.sub_0_l. }
  unfold parseFloat. destruct neg.
  - cbn [app trimStart]. change (is_ws 45) with false. cbv iota.
    change (45 =? 43) with false. change (45 =? 45) with true. cbv iota.
    apply Hunsigned.
  - cbn [app]. specialize (Hunsigned false).
    cbn [digits_text fmap list_fmap app] in Hunsigned |- *.
    cbn [trimStart]. rewrite Hws, Hplus, Hminus. exact Hunsigned.
Qed.

Lemma decimal_text_chars (d : decimal) :
  wf_decimal d ->
  decimal_text d <> []
  /\ (comma ∉ decimal_text d)
  /\ forallb (fun c => negb (is_ws c)) (decimal_text d) = true.
Proof.
  destruct d as [neg ip fp]. intros (Hne & Hip & Hfp). simpl in *.
  assert (Hdigits : forall ds, Forall (fun x => x < 10) ds ->
            (comma ∉ digits_text ds)
            /\ forallb (fun c => negb (is_ws c)) (digits_text ds) = true).
  { intros ds Hds. induction Hds as [|x ds Hx _ [IH1 IH2]]; [split; [|done]|].
    - apply not_elem_of_nil.
    - destruct (digit_code x Hx) as (_ & Hws & _ & Hcomma & _).
      split.
      + apply not_elem_of_cons. split; [|done].
        intros Heq. rewrite <- Heq in Hcomma. by rewrite N.eqb_refl in Hcomma.
      + simpl. by rewrite Hws, IH2. }
  destruct (Hdigits ip Hip) as [Hc1 Hw1]. destruct (Hdigits fp Hfp) as [Hc2 Hw2].
  unfold decimal_text. simpl. split; [|split].
  - destruct neg; [done|]. destruct ip; [done|]. done.
  - rewrite !not_elem_of_app. split; [|split; [done|]].
    + destruct neg; [|apply not_elem_of_nil].
      apply not_elem_of_cons. split; [done|apply not_elem_of_nil].
    + destruct fp; [apply not_elem_of_nil|].
      apply not_elem_of_cons. by split.
  - rewrite !forallb_app, Hw1. destruct neg, fp; simpl; try done.
    all: by simpl in Hw2.
Qed.

Lemma tokens_render_coordinates (points : list (decimal * decimal)) :
  Forall (fun p => wf_decimal p.1 /\ wf_decimal p.2) points ->
  tokens (render_coordinates points) = point_text <$> points.
Proof.
  intros Hwf. induction Hwf as [|p rest [Hlon Hlat] _ IH]; [done|].
  assert (Hword : tokens (point_text p) = [point_text p]).
  { destruct (decimal_text_chars _ Hlon) as (Hne & _ & Hws1).
    destruct (decimal_text_chars _ Hlat) as (_ & _ & Hws2).
    apply tokens_word.
    - unfold point_text. by destruct (decimal_text p.1).
    - unfold point_text. rewrite forallb_app, Hws1. simpl. exact Hws2. }
  destruct rest as [|q rest]; [exact Hword|].
  change (render_coordinates (p :: q :: rest))
    with (point_text p ++ [32] ++ render_coordinates (q :: rest)).
  rewrite tokens_app by done. by rewrite Hword, IH.
Qed.

(** X9: coordinate text written in the KML way (points [lon,lat] of
    plain signed decimals of at most fifteen digits, one space between
    points) parses back, point by point, to the doubles that these
    decimals name. *)
Theorem parseCoordinates_render (points : list (decimal * decimal)) :
  Forall (fun p => (wf_decimal p.1 /\ short_decimal p.1)
                   /\ (wf_decimal p.2 /\ short_decimal p.2)) points ->
  parseCoordinates (render_coordinates points)
  = (fun p => [decimal_number p.1; decimal_number p.2]) <$> points.
Proof.
  intros Hshort.
  assert (Hwf : Forall (fun p => wf_decimal p.1 /\ wf_decimal p.2) points).
  { induction Hshort as [|p rest [[? _] [? _]] _ IH]; constructor; by try split. }
  clear Hshort.
  rewrite parseCoordinates_tokens, tokens_render_coordinates by done.
  rewrite <- list_fmap_compose.
  induction Hwf as [|p rest [Hlon Hlat] _ IH]; [done|].
  rewrite !fmap_cons, IH. f_equal. simpl.
  destruct (decimal_text_chars _ Hlon) as (_ & Hc1 & _).
  destruct (decimal_text_chars _ Hlat) as (_ & Hc2 & _).
  unfold coord_pair, point_text.
  rewrite split_comma_app, split_comma_single by done.
  unfold parseFloat_arg. simpl.
  by rewrite !parseFloat_decimal_text.
Qed.

(** ** More on the forecast schema *)

Lemma parse_array_success (element : schema) (p : list path_elem) (v d : value) :
  parse (z_array element) p v = Success d -> exists ds, d = VArr ds.
Proof.
  destruct v as [| | | | |items|]; try done. simpl.
  match goal with
  | |- match ?r with _ => _ end = _ -> _ => destruct r; [|done]
  end.
  intros [= <-]. by eexists.
Qed.

Lemma never_undefined_object (shape : list (jsstring * schema)) :
  never_undefined (z_object shape).
Proof. intros p v d H. by apply parse_object_success in H as [ds ->]. Qed.

Lemma never_undefined_array (element : schema) : never_undefined (z_array element).
Proof. intros p v d H. by apply parse_array_success in H as [ds ->]. Qed.

(** An object whose keys all have defined results has exactly the keys
    of the shape, in the order of the shape. *)
Lemma parse_object_all_keys (shape : list (jsstring * schema)) (p : list path_elem)
    (v d : value) :
  parse (z_object shape) p v = Success d ->
  Forall (fun ks => never_undefined ks.2) shape ->
  exists ds, d = VObj ds /\ ds.*1 = shape.*1.
Proof.
  intros Hparse Hdef. destruct v as [| | | | | |fields]; try done.
  simpl in Hparse.
  match type of Hparse with
  | match ?go shape with _ => _ end = _ =>
      assert (Hgo : forall ds, go shape = Success ds -> ds.*1 = shape.*1);
      [clear Hparse | destruct (go shape) as [ds|] eqn:Hds; [|done]]
  end.
  { induction shape as [|[k sk] shape IH]; intros ds Hds.
    - by injection Hds as <-.
    - apply list.Forall_cons in Hdef as [Hk Hdef].
      match type of Hds with
      | merge _ ?r1 ?r2 = _ =>
          destruct r1 as [d'|] eqn:Hd'; destruct r2 as [ds'|] eqn:Hds';
          simpl in Hds; try discriminate
      end.
      injection Hds as <-. apply Hk in Hd'.
      rewrite fmap_cons. simpl. rewrite <- (IH Hdef ds' eq_refl).
      by destruct d'. }
  injection Hparse as <-. exists ds. split; [done|]. by apply Hgo.
Qed.

(** An array fails as soon as one element fails. *)
Lemma parse_array_element_fails (element : schema) (p : list path_elem)
    (items : list value) (i : nat) (x : value) :
  items !! i = Some x ->
  (forall p', success (parse element p' x) = false) ->
  success (parse (z_array element) p (VArr items)) = false.
Proof.
  intros Hi Hfail. simpl.
  match goal with
  | |- success (match ?go 0%nat items with _ => _ end) = false =>
      assert (Hgo : forall k, success (go k items) = false)
  end.
  { revert i Hi. induction items as [|y items IH]; intros i Hi k; [done|].
    destruct i as [|i]; simpl in Hi.
    - injection Hi as ->. apply merge_failure_l. apply Hfail.
    - apply merge_failure_r. by apply (IH i). }
  specialize (Hgo 0%nat).
  match goal with
  | |- success (match ?r with _ => _ end) = false => by destruct r
  end.
Qed.

(** The issues of a failing key are among the issues of the object. *)
Lemma parse_object_field_issue (shape : list (jsstring * schema))
    (k : jsstring) (sk : schema) (p : list path_elem)
    (fields : list (jsstring * value)) (ek : ZodError) :
  (k, sk) ∈ shape ->
  parse sk (p ++ [PKey k]) (get (VObj fields) k) = Failure ek ->
  exists e, parse (z_object shape) p (VObj fields) = Failure e
    /\ forall x, x ∈ ek -> x ∈ e.
Proof.
  intros Hin Hfail. simpl.
  match goal with
  | |- exists e, match ?go shape with _ => _ end = _ /\ _ =>
      assert (Hgo : exists e, go shape = Failure e /\ forall x, x ∈ ek -> x ∈ e)
  end.
  { induction shape as [|[k' sk'] shape IH]; [by apply elem_of_nil in Hin|].
    apply elem_of_cons in Hin as [[= <- <-]|Hin].
    - simpl in Hfail. rewrite Hfail.
      match goal with |- exists e, merge _ _ ?r = _ /\ _ => destruct r end;
        simpl; eexists; (split; [done|]); [done|].
      intros x Hx. apply elem_of_app. by left.
    - destruct (IH Hin) as (e & He & Hincl). rewrite He.
      match goal with |- exists e, merge _ ?r _ = _ /\ _ => destruct r end;
        simpl; eexists; (split; [done|]); [done|].
      intros x Hx. apply elem_of_app. right. by apply Hincl. }
  destruct Hgo as (e & -> & Hincl). by exists e.
Qed.

Local Ltac nodup_keys := apply (bool_decide_unpack _); vm_compute; reflexivity.

(** What the schema makes of [mountain_weather_forecast] and of one of
    its keys, on a response that passes. *)
Lemma parsed_forecast_key (data parsed : value) (k : jsstring) (sk : schema) :
  safeParse nwacWeatherForecastMetaSchema data = Success parsed ->
  (k, sk) ∈ [ (lit "id", z_number);
              (lit "creation_date", z_transform z_string utc_annotate);
              (lit "publish_date", z_transform z_string utc_annotate);
              (lit "day1_date", z_string);
              (lit "special_header_notes", z_string);
              (lit "synopsis_day1_day2", z_string);
              (lit "extended_synopsis", z_string);
              (lit "afternoon", z_coerce_boolean) ] ->
  exists dk,
    parse sk [PKey (lit "objects"); PKey (lit "mountain_weather_forecast"); PKey k]
          (get (get (get data (lit "objects")) (lit "mountain_weather_forecast")) k)
    = Success dk
    /\ (dk <> VUndefined ->
        get (get (get parsed (lit "objects")) (lit "mountain_weather_forecast")) k
        = dk).
Proof.
  intros Hparse Hk. apply parsed_objects in Hparse.
  unfold nwacWeatherForecastSchema in Hparse.
  eapply (parse_object_key _ _ _ _ (lit "mountain_weather_forecast")) in Hparse
    as (dm & Hdm & Hgetm); [|nodup_keys|in_shape].
  simpl app in Hdm.
  pose proof Hdm as Hobj. apply parse_object_success in Hobj as [ds ->].
  rewrite Hgetm by done.
  eapply (parse_object_key _ _ _ _ k sk) in Hdm as (dk & Hdk & Hgetk);
    [|nodup_keys|exact Hk].
  simpl app in Hdk. by exists dk.
Qed.

Lemma replace_first (pat : N) (rep before after : jsstring) :
  pat ∉ before -> replace pat rep (before ++ pat :: after) = before ++ rep ++ after.
Proof.
  induction before as [|c r IH]; intros Hnotin.
  - simpl. by rewrite N.eqb_refl.
  - apply not_elem_of_cons in Hnotin as [Hc Hr]. simpl.
    destruct (N.eqb_spec c pat); [congruence|]. by rewrite IH.
Qed.

Lemma replace_absent (pat : N) (rep s : jsstring) :
  pat ∉ s -> replace pat rep s = s.
Proof.
  induction s as [|c r IH]; intros Hnotin; [done|].
  apply not_elem_of_cons in Hnotin as [Hc Hr]. simpl.
  destruct (N.eqb_spec c pat); [congruence|]. by rewrite IH.
Qed.

(** X10: on a response that passes, [creation_date] and [publish_date]
    come back with the first space replaced by [T] and [+00:00]
    appended: [date time] becomes [dateTtime+00:00]; a text without a
    space only gets the suffix. *)
Theorem forecast_dates_annotated (data parsed : value) (k s : jsstring) :
  safeParse nwacWeatherForecastMetaSchema data = Success parsed ->
  k = lit "creation_date" \/ k = lit "publish_date" ->
  get (get (get data (lit "objects")) (lit "mountain_weather_forecast")) k = VStr s ->
  get (get (get parsed (lit "objects")) (lit "mountain_weather_forecast")) k
  = VStr (replace 32 (lit "T") s ++ lit "+00:00")
  /\ (forall date time, s = date ++ 32 :: time -> 32 ∉ date ->
        get (get (get parsed (lit "objects")) (lit "mountain_weather_forecast")) k
        = VStr (date ++ lit "T" ++ time ++ lit "+00:00"))
  /\ (32 ∉ s ->
        get (get (get parsed (lit "objects")) (lit "mountain_weather_forecast")) k
        = VStr (s ++ lit "+00:00")).
Proof.
  intros Hparse Hk Hin.
  assert (Hout :
    get (get (get parsed (lit "objects")) (lit "mountain_weather_forecast")) k
    = VStr (replace 32 (lit "T") s ++ lit "+00:00")).
  { destruct (parsed_forecast_key data parsed k (z_transform z_string utc_annotate)
                Hparse) as (dk & Hdk & Hget).
    - destruct Hk as [-> | ->]; in_shape.
    - rewrite Hin in Hdk. simpl in Hdk. injection Hdk as <-. by apply Hget. }
  split; [exact Hout|]. split.
  - intros date time -> Hdate. rewrite Hout, replace_first by done.
    by rewrite <- !app_assoc.
  - intros Hs. by rewrite Hout, replace_absent.
Qed.

Lemma success_merge {A B C} (f : A -> B -> C) (r1 : SafeParseReturn A)
    (r2 : SafeParseReturn B) :
  success (merge f r1 r2) = success r1 && success r2.
Proof. by destruct r1, r2. Qed.

(** Whether an object passes depends on its input only through whether
    each key of the shape passes. *)
Lemma parse_object_success_congr (shape : list (jsstring * schema))
    (p : list path_elem) (fields fields' : list (jsstring * value)) :
  Forall (fun ks =>
            success (parse ks.2 (p ++ [PKey ks.1]) (get (VObj fields') ks.1))
            = success (parse ks.2 (p ++ [PKey ks.1]) (get (VObj fields) ks.1)))
         shape ->
  success (parse (z_object shape) p (VObj fields'))
  = success (parse (z_object shape) p (VObj fields)).
Proof.
  intros Hkeys. simpl.
  match goal with
  | |- success (match ?go' shape with _ => _ end)
       = success (match ?go shape with _ => _ end) =>
      assert (Hgo : success (go' shape) = success (go shape))
  end.
  { induction Hkeys as [|[k sk] shape Hk _ IH]; [done|].
    rewrite !success_merge. simpl in Hk. f_equal; [exact Hk|exact IH]. }
  match goal with
  | |- success (match ?r' with _ => _ end) = success (match ?r with _ => _ end) =>
      by destruct r', r
  end.
Qed.

Local Ltac other_key Hsame :=
  simpl fst; simpl snd; rewrite Hsame; [reflexivity | in_shape].

(** Whether a response passes does not depend on what it holds at
    [mountain_weather_forecast.afternoon]. *)
Lemma afternoon_is_free (fields fields' ofields ofields' mfields mfields'
                         : list (jsstring * value)) :
  get (VObj fields) (lit "objects") = VObj ofields ->
  get (VObj fields') (lit "objects") = VObj ofields' ->
  get (VObj fields') (lit "meta") = get (VObj fields) (lit "meta") ->
  get (VObj ofields) (lit "mountain_weather_forecast") = VObj mfields ->
  get (VObj ofields') (lit "mountain_weather_forecast") = VObj mfields' ->
  (forall k, k ∈ forecast_keys_beside_mountain_weather ->
     get (VObj ofields') k = get (VObj ofields) k) ->
  (forall k, k ∈ mountain_weather_keys_beside_afternoon ->
     get (VObj mfields') k = get (VObj mfields) k) ->
  success (safeParse nwacWeatherForecastMetaSchema (VObj fields'))
  = success (safeParse nwacWeatherForecastMetaSchema (VObj fields)).
Proof.
  intros Ho Ho' Hmeta Hm Hm' Hobj Hmwf.
  unfold safeParse, nwacWeatherForecastMetaSchema.
  apply parse_object_success_congr.
  apply List.Forall_cons; [simpl fst; simpl snd; by rewrite Hmeta|].
  apply List.Forall_cons; [|apply List.Forall_nil].
  simpl fst; simpl snd. rewrite Ho, Ho'.
  unfold nwacWeatherForecastSchema.
  apply parse_object_success_congr.
  apply List.Forall_cons; [other_key Hobj|].
  apply List.Forall_cons; [other_key Hobj|].
  apply List.Forall_cons;
    [|repeat (apply List.Forall_cons; [other_key Hobj|]); apply List.Forall_nil].
  simpl fst; simpl snd. rewrite Hm, Hm'.
  apply parse_object_success_congr.
  do 7 (apply List.Forall_cons; [other_key Hmwf|]).
  apply List.Forall_cons; [|apply List.Forall_nil].
  reflexivity.
Qed.

(** X11: [afternoon] is never a reason to fail: when a response
    passes, so does every response that agrees with it on the other
    keys of the schema, whatever it holds at
    [mountain_weather_forecast.afternoon] and also when that key is
    absent; what comes back at [afternoon] is the JavaScript truthiness
    of what was sent, [false] for an absent key. *)
Theorem forecast_afternoon_coerced (data parsed data' : value) :
  safeParse nwacWeatherForecastMetaSchema data = Success parsed ->
  getParsedType data' = t_object ->
  get data' (lit "meta") = get data (lit "meta") ->
  getParsedType (get data' (lit "objects")) = t_object ->
  Forall (fun k => get (get data' (lit "objects")) k
                   = get (get data (lit "objects")) k)
         forecast_keys_beside_mountain_weather ->
  getParsedType (get (get data' (lit "objects")) (lit "mountain_weather_forecast"))
  = t_object ->
  Forall (fun k =>
            get (get (get data' (lit "objects")) (lit "mountain_weather_forecast")) k
            = get (get (get data (lit "objects")) (lit "mountain_weather_forecast")) k)
         mountain_weather_keys_beside_afternoon ->
  get (get (get parsed (lit "objects")) (lit "mountain_weather_forecast"))
      (lit "afternoon")
  = VBool (toBoolean
             (get (get (get data (lit "objects")) (lit "mountain_weather_forecast"))
                  (lit "afternoon")))
  /\ exists parsed',
       safeParse nwacWeatherForecastMetaSchema data' = Success parsed'
       /\ get (get (get parsed' (lit "objects")) (lit "mountain_weather_forecast"))
              (lit "afternoon")
          = VBool (toBoolean
                     (get (get (get data' (lit "objects"))
                               (lit "mountain_weather_forecast"))
                          (lit "afternoon"))).
Proof.
  intros Hparse Hd' Hmeta Ho' Hosame Hm' Hmsame.
  rewrite list.Forall_forall in Hosame, Hmsame.
  assert (Hcoerced : forall d q,
            safeParse nwacWeatherForecastMetaSchema d = Success q ->
            get (get (get q (lit "objects")) (lit "mountain_weather_forecast"))
                (lit "afternoon")
            = VBool (toBoolean
                       (get (get (get d (lit "objects"))
                                 (lit "mountain_weather_forecast"))
                            (lit "afternoon")))).
  { intros d q Hq.
    destruct (parsed_forecast_key d q (lit "afternoon") z_coerce_boolean Hq)
      as (dk & Hdk & Hget); [in_shape|].
    simpl in Hdk. injection Hdk as <-. by apply Hget. }
  split; [by apply Hcoerced|].
  assert (Hpass : success (safeParse nwacWeatherForecastMetaSchema data') = true).
  { pose proof Hparse as Hobjects. apply parsed_objects in Hobjects.
    pose proof Hobjects as Hforecast.
    unfold nwacWeatherForecastSchema in Hforecast.
    eapply (parse_object_key _ _ _ _ (lit "mountain_weather_forecast")) in Hforecast
      as (dm & Hdm & _); [|nodup_keys|in_shape].
    destruct data as [| | | | | |fields]; try done.
    destruct data' as [| | |[| |]| | |fields']; try done.
    destruct (get (VObj fields) (lit "objects"))
      as [| | | | | |ofields] eqn:Ho; try done.
    destruct (get (VObj fields') (lit "objects"))
      as [| | |[| |]| | |ofields'] eqn:Ho2; try done.
    destruct (get (VObj ofields) (lit "mountain_weather_forecast"))
      as [| | | | | |mfields] eqn:Hm; try done.
    destruct (get (VObj ofields') (lit "mountain_weather_forecast"))
      as [| | |[| |]| | |mfields'] eqn:Hm2; try done.
    rewrite (afternoon_is_free fields fields' ofields ofields' mfields mfields')
      by done.
    by rewrite Hparse. }
  destruct (safeParse nwacWeatherForecastMetaSchema data') as [parsed'|] eqn:Hparse';
    [|done].
  exists parsed'. split; [done|]. by apply Hcoerced.
Qed.

(** X12: the forecast that is returned has exactly the nine keys of the
    schema, in the order of the schema: keys the response has beyond
    them are not passed on. *)
Theorem forecast_keys_are_those_of_the_schema (data parsed : value) :
  safeParse nwacWeatherForecastMetaSchema data = Success parsed ->
  exists fields,
    get parsed (lit "objects") = VObj fields
    /\ fields.*1
       = [ lit "five_thousand_foot_temperatures"; lit "forecaster";
           lit "mountain_weather_forecast"; lit "periods"; lit "sub_periods";
           lit "precipitation_by_location"; lit "snow_levels";
           lit "ridgeline_winds"; lit "weather_forecasts" ].
Proof.
  intros Hparse. apply parsed_objects in Hparse.
  unfold nwacWeatherForecastSchema in Hparse.
  apply parse_object_all_keys in Hparse as (ds & -> & Hkeys).
  - exists ds. split; [done|]. rewrite Hkeys. reflexivity.
  - repeat constructor;
      first [apply never_undefined_array | apply never_undefined_object].
Qed.

Lemma parse_nativeEnum_fails (values : list jsstring) (p : list path_elem)
    (v : value) :
  v ∉ (VStr <$> values) -> success (parse (z_nativeEnum values) p v) = false.
Proof.
  intros Hv. simpl. destruct v as [| | |[| |]|x| |]; try done.
  case_bool_decide as Hx; [|done].
  exfalso. apply Hv. by apply list_elem_of_fmap_2.
Qed.

(** X13: a response in which some entry of [weather_forecasts] has a
    [time_of_day] that is not one of the six codes of TimeOfDay fails
    the schema. *)
Theorem forecast_time_of_day_checked
    (data : value) (items : list value) (i : nat) (item : value) :
  get (get data (lit "objects")) (lit "weather_forecasts") = VArr items ->
  items !! i = Some item ->
  get item (lit "time_of_day") ∉ (VStr <$> (snd <$> TimeOfDay)) ->
  success (safeParse nwacWeatherForecastMetaSchema data) = false.
Proof.
  intros Hitems Hi Hcode.
  unfold safeParse, nwacWeatherForecastMetaSchema.
  eapply (parse_object_field_fails _ (lit "objects")); [in_shape|].
  unfold nwacWeatherForecastSchema.
  eapply (parse_object_field_fails _ (lit "weather_forecasts")); [in_shape|].
  rewrite Hitems. apply (parse_array_element_fails _ _ _ i item Hi).
  intros p'. eapply (parse_object_field_fails _ (lit "time_of_day")); [in_shape|].
  unfold nativeEnum. by apply parse_nativeEnum_fails.
Qed.

(** X14: when a string-valued key of [mountain_weather_forecast] holds
    something else, or nothing, the ZodError has an issue with the path
    of that key and the type that was received. *)
Theorem forecast_error_names_the_key (data : value) (k : jsstring) :
  getParsedType data = t_object ->
  getParsedType (get data (lit "objects")) = t_object ->
  getParsedType (get (get data (lit "objects")) (lit "mountain_weather_forecast"))
  = t_object ->
  k ∈ forecast_string_keys ->
  getParsedType
    (get (get (get data (lit "objects")) (lit "mountain_weather_forecast")) k)
  <> t_string ->
  exists e,
    safeParse nwacWeatherForecastMetaSchema data = Failure e
    /\ mkIssue
         (invalid_type t_string
            (getParsedType
               (get (get (get data (lit "objects"))
                         (lit "mountain_weather_forecast")) k)))
         [PKey (lit "objects"); PKey (lit "mountain_weather_forecast"); PKey k]
       ∈ e.
Proof.
  intros Hdata Hobjects Hforecast Hk Hvalue.
  destruct data as [| | |[| |]| | |fields]; try done.
  destruct (get (VObj fields) (lit "objects"))
    as [| | |[| |]| | |ofields] eqn:Ho; try done.
  destruct (get (VObj ofields) (lit "mountain_weather_forecast"))
    as [| | |[| |]| | |mfields] eqn:Hm; try done.
  remember (get (VObj mfields) k) as v eqn:Hv.
  set (issue := mkIssue (invalid_type t_string (getParsedType v))
                  [PKey (lit "objects"); PKey (lit "mountain_weather_forecast");
                   PKey k]).
  assert (Hfield : exists sk,
            parse sk [PKey (lit "objects"); PKey (lit "mountain_weather_forecast");
                      PKey k] v = Failure [issue]
            /\ (k, sk) ∈ [ (lit "id", z_number);
                           (lit "creation_date", z_transform z_string utc_annotate);
                           (lit "publish_date", z_transform z_string utc_annotate);
                           (lit "day1_date", z_string);
                           (lit "special_header_notes", z_string);
                           (lit "synopsis_day1_day2", z_string);
                           (lit "extended_synopsis", z_string);
                           (lit "afternoon", z_coerce_boolean) ]).
  { assert (Hleaf : forall sk,
              sk = z_string \/ sk = z_transform z_string utc_annotate ->
              parse sk [PKey (lit "objects"); PKey (lit "mountain_weather_forecast");
                        PKey k] v = Failure [issue]).
    { intros sk [-> | ->]; simpl;
        destruct v as [| | |[| |]| | |]; try done; by destruct Hvalue. }
    unfold forecast_string_keys in Hk.
    repeat (apply elem_of_cons in Hk as [-> | Hk];
            [eexists; split; [|in_shape]; apply Hleaf; auto|]).
    by apply elem_of_nil in Hk. }
  destruct Hfield as (sk & Hleaf & Hin).
  assert (Hm3 : exists em,
            parse (z_object
                     [ (lit "id", z_number);
                       (lit "creation_date", z_transform z_string utc_annotate);
                       (lit "publish_date", z_transform z_string utc_annotate);
                       (lit "day1_date", z_string);
                       (lit "special_header_notes", z_string);
                       (lit "synopsis_day1_day2", z_string);
                       (lit "extended_synopsis", z_string);
                       (lit "afternoon", z_coerce_boolean) ])
                  [PKey (lit "objects"); PKey (lit "mountain_weather_forecast")]
                  (VObj mfields) = Failure em
            /\ forall x, x ∈ [issue] -> x ∈ em).
  { eapply (parse_object_field_issue _ k sk); [exact Hin|].
    rewrite <- Hv. exact Hleaf. }
  destruct Hm3 as (em & Hem & Hinm).
  assert (Ho2 : exists eo,
            parse nwacWeatherForecastSchema [PKey (lit "objects")] (VObj ofields)
            = Failure eo /\ forall x, x ∈ em -> x ∈ eo).
  { unfold nwacWeatherForecastSchema.
    eapply (parse_object_field_issue _ (lit "mountain_weather_forecast"));
      [in_shape|].
    rewrite Hm. exact Hem. }
  destruct Ho2 as (eo & Heo & Hino).
  assert (Hd1 : exists e,
            safeParse nwacWeatherForecastMetaSchema (VObj fields) = Failure e
            /\ forall x, x ∈ eo -> x ∈ e).
  { unfold safeParse, nwacWeatherForecastMetaSchema.
    eapply (parse_object_field_issue _ (lit "objects")); [in_shape|].
    rewrite Ho. exact Heo. }
  destruct Hd1 as (e & He & Hine).
  exists e. split; [exact He|].
  apply Hine, Hino, Hinm. apply list_elem_of_here.
Qed.

(** X15: fetchNWACWeatherForecast logs and reports only validation
    failures: a transport failure is thrown on as it is, and a response
    that passes is returned, in both cases with no record added. *)
Theorem fetchNWACWeatherForecast_quiet
    (nwacHost : jsstring) (zone : Z) (requestedTime : Date) :
  (forall failure,
     outcome (axios_get (nwacHost ++ lit "/api/v1/mountain-weather-region-forecast")
                {| zone_id := zone;
                   published_datetime := toDateTimeInterfaceATOM requestedTime |})
     = Thrown failure ->
     fetchNWACWeatherForecast nwacHost zone requestedTime
     = mkM (Thrown failure)
           (events (axios_get
                      (nwacHost ++ lit "/api/v1/mountain-weather-region-forecast")
                      {| zone_id := zone;
                         published_datetime :=
                           toDateTimeInterfaceATOM requestedTime |})))
  /\ (forall data parsed,
        outcome (axios_get (nwacHost ++ lit "/api/v1/mountain-weather-region-forecast")
                   {| zone_id := zone;
                      published_datetime := toDateTimeInterfaceATOM requestedTime |})
        = Returned data ->
        safeParse nwacWeatherForecastMetaSchema data = Success parsed ->
        fetchNWACWeatherForecast nwacHost zone requestedTime
        = mkM (Returned (get parsed (lit "objects")))
              (events (axios_get
                         (nwacHost ++ lit "/api/v1/mountain-weather-region-forecast")
                         {| zone_id := zone;
                            published_datetime :=
                              toDateTimeInterfaceATOM requestedTime |}))).
Proof.
  split.
  - intros failure Haxios. unfold fetchNWACWeatherForecast, mbind, M_bind, bind.
    by rewrite Haxios.
  - intros data parsed Haxios Hparsed.
    unfold fetchNWACWeatherForecast, mbind, M_bind, bind.
    rewrite Haxios. simpl. rewrite Hparsed. simpl. by rewrite app_nil_r.
Qed.

End Hooks.

(** ** The weather station list *)

Lemma insert_by_perm {A} (compare : A -> A -> Z) (x : A) (l : list A) :
  insert_by compare x l ≡ₚ x :: l.
Proof.
  induction l as [|y r IH]; [done|]. simpl.
  destruct (compare x y <=? 0)%Z; [done|].
  rewrite IH. apply Permutation_swap.
Qed.

Lemma sort_by_perm {A} (compare : A -> A -> Z) (l : list A) :
  sort_by compare l ≡ₚ l.
Proof.
  induction l as [|x l IH]; [done|]. simpl.
  by rewrite insert_by_perm, IH.
Qed.

Lemma insert_by_sorted {A} (compare : A -> A -> Z) (x : A) (l : list A) :
  (forall a b, (compare a b <= 0)%Z \/ (compare b a <= 0)%Z) ->
  Sorted (fun a b => (compare a b <= 0)%Z) l ->
  Sorted (fun a b => (compare a b <= 0)%Z) (insert_by compare x l).
Proof.
  intros Htotal Hsorted. induction Hsorted as [|y r Hr IH Hhd].
  - repeat constructor.
  - simpl. destruct (Z.leb_spec (compare x y) 0) as [Hle|Hgt].
    + repeat constructor; done.
    + constructor; [exact IH|].
      destruct r as [|z r]; simpl.
      * constructor. destruct (Htotal x y); [lia|done].
      * destruct (compare x z <=? 0)%Z.
        -- constructor. destruct (Htotal x y); [lia|done].
        -- constructor. by inversion Hhd.
Qed.

Lemma sort_by_sorted {A} (compare : A -> A -> Z) (l : list A) :
  (forall a b, (compare a b <= 0)%Z \/ (compare b a <= 0)%Z) ->
  Sorted (fun a b => (compare a b <= 0)%Z) (sort_by compare l).
Proof.
  intros Htotal. induction l as [|x l IH]; [constructor|].
  simpl. by apply insert_by_sorted.
Qed.

Lemma Sorted_labels (compare : jsstring -> jsstring -> Z) (l : list Action) :
  Sorted (fun a b => (compare (label a) (label b) <= 0)%Z) l ->
  Sorted (fun a b => (compare a b <= 0)%Z) (label <$> l).
Proof.
  induction 1 as [|a l Hl IH Hhd]; [constructor|].
  rewrite fmap_cons. constructor; [exact IH|].
  destruct Hhd; simpl; by constructor.
Qed.

Lemma names_of_filtered (f : ZoneResult -> ZoneActions) (zones : list ZoneResult) :
  (forall zone, zoneName (f zone) = zone_name zone) ->
  (forall zone, (0 <? length (actions (f zone)))%nat = has_station_groups zone) ->
  zoneName <$> List.filter (fun d => (0 <? length (actions d))%nat) (f <$> zones)
  = zone_name <$> List.filter has_station_groups zones.
Proof.
  intros Hname Hkept. induction zones as [|zone zones IH]; [done|].
  rewrite fmap_cons. cbn [List.filter]. rewrite Hkept.
  destruct (has_station_groups zone); [|exact IH].
  by rewrite !fmap_cons, IH, Hname.
Qed.

(** X16: the list has one entry per zone that has at least one station
    group, under the zone's name and in the order of the zones; zones
    without station groups are left out. *)
Theorem StationList_lists_zones_with_stations
    (localeCompare : jsstring -> jsstring -> Z)
    (center requestedTime : jsstring) (zones : list ZoneResult) :
  zoneName <$> StationList_data localeCompare center requestedTime zones
  = zone_name <$> List.filter has_station_groups zones.
Proof.
  unfold StationList_data. apply names_of_filtered; [done|].
  intros zone. simpl.
  rewrite (Permutation_length (sort_by_perm _ _)), length_fmap.
  unfold has_station_groups. by destruct (stationGroups zone).
Qed.

(** X17: an entry of the list belongs to a zone of the input; its
    actions are the station groups of that zone, one action per group
    with the group's name as label and its stations as data, sorted by
    label; an action navigates with the identifiers of the stations it
    is given, in their order, and with the zone's name. *)
Theorem StationList_actions
    (localeCompare : jsstring -> jsstring -> Z)
    (center requestedTime : jsstring) (zones : list ZoneResult)
    (entry : ZoneActions) :
  (forall a b, (localeCompare a b <= 0)%Z \/ (localeCompare b a <= 0)%Z) ->
  entry ∈ StationList_data localeCompare center requestedTime zones ->
  exists zone,
    zone ∈ zones
    /\ zoneName entry = zone_name zone
    /\ actions entry <> []
    /\ (fun a => (label a, data a)) <$> actions entry ≡ₚ stationGroups zone
    /\ Sorted (fun a b => (localeCompare a b <= 0)%Z) (label <$> actions entry)
    /\ forall a, a ∈ actions entry ->
         forall name stations,
           action a name stations
           = {| nav_center_id := center;
                station_stids := stid <$> stations;
                nav_name := name;
                nav_requestedTime := requestedTime;
                nav_zoneName := zone_name zone |}.
Proof.
  intros Htotal Hentry. unfold StationList_data in Hentry.
  apply list_elem_of_In, filter_In in Hentry as [Hin Hlen].
  apply list_elem_of_In, list_elem_of_fmap in Hin as (zone & -> & Hzone).
  exists zone. split; [exact Hzone|]. split; [done|]. simpl in *.
  split; [|split; [|split]].
  - intros Hnil. rewrite Hnil in Hlen. discriminate.
  - rewrite sort_by_perm, <- list_fmap_compose. clear Hlen.
    generalize (stationGroups zone). intros groups.
    induction groups as [|[k v] groups IH]; [done|].
    rewrite fmap_cons. simpl. by f_equiv.
  - apply Sorted_labels.
    apply (sort_by_sorted (fun a b => localeCompare (label a) (label b))).
    intros a b. apply Htotal.
  - intros a Ha name stations.
    rewrite sort_by_perm in Ha.
    apply list_elem_of_fmap in Ha as ([k v] & -> & _). done.
Qed.

Lemma codeunit_compare_total (a b : jsstring) :
  (codeunit_compare a b <= 0)%Z \/ (codeunit_compare b a <= 0)%Z.
Proof.
  revert b. induction a as [|x a IH]; intros [|y b]; simpl; try lia.
  rewrite (N.compare_antisym x y).
  destruct (x ?= y)%N; simpl; [apply IH|lia|lia].
Qed.

(** ** The theorems at concrete inputs *)

Lemma parseCoordinates_keeps_malformed_token_witness :
  tokens (lit "1.5,2 abc,3 4") !! 1%nat = Some (lit "abc,3")
  /\ is_number_pair (lit "abc,3") = false
  /\ length (parseCoordinates (lit "1.5,2 abc,3 4"))
     = length (tokens (lit "1.5,2 abc,3 4"))
  /\ exists lon lat,
       parseCoordinates (lit "1.5,2 abc,3 4") !! 1%nat = Some [lon; lat]
       /\ (lon = NaN \/ lat = NaN).
Proof.
  split; [reflexivity|]. split; [reflexivity|].
  apply (parseCoordinates_keeps_malformed_token
           (lit "1.5,2 abc,3 4") 1 (lit "abc,3")); reflexivity.
Defined.

Lemma parseCoordinates_format_witness :
  parseCoordinates (lit "  ") = []
  /\ parseCoordinates (lit " 1,2  3,4 ") = coord_pair <$> tokens (lit " 1,2  3,4 ")
  /\ coord_pair (lit "-121.4,47.4,0") = [parseFloat (lit "-121.4"); parseFloat (lit "47.4")].
Proof.
  destruct parseCoordinates_format as (Hblank & Hsplit & Hpair & _).
  split; [apply Hblank; reflexivity|]. split.
  - destruct (Hsplit (lit " 1,2  3,4 ") eq_refl) as [-> ->]. reflexivity.
  - destruct (Hpair (lit "-121.4") (lit "47.4")) as [_ Halt].
    + apply (bool_decide_unpack _). vm_compute. reflexivity.
    + apply (bool_decide_unpack _). vm_compute. reflexivity.
    + apply (Halt (lit "0")).
Defined.

Lemma transform_ids_from_original_ordinals_witness :
  exists out,
    outcome (transformKmlFeaturesToObservationZones
               BaseProperties nonEmptyName_safeParse sample_collection (lit "NWAC"))
    = Returned out
    /\ (length (features out) <= 3)%nat
    /\ forall j f, features out !! j = Some f ->
         exists i g, features sample_collection !! i = Some g
           /\ accepts BaseProperties nonEmptyName_safeParse (lit "NWAC") g = true
           /\ id f = (-100000 - Z.of_nat i)%Z
           /\ geometry f = geometry g
           /\ j = length (List.filter
                            (accepts BaseProperties nonEmptyName_safeParse (lit "NWAC"))
                            (take i (features sample_collection)))
           /\ (j <= i)%nat.
Proof.
  exact (transform_ids_from_original_ordinals
           BaseProperties nonEmptyName_safeParse sample_collection (lit "NWAC")).
Defined.

Lemma transform_drops_only_invalid_witness :
  features sample_collection !! 1%nat = Some (sample_feature 1 "")
  /\ exists out,
       outcome (transformKmlFeaturesToObservationZones
                  BaseProperties nonEmptyName_safeParse sample_collection (lit "NWAC"))
       = Returned out
       /\ (forall f, f ∈ features out -> id f <> (-100001)%Z)
       /\ features out !! 0%nat
          = Some {| feature_type := TFeature;
                    geometry := geometry (sample_feature 0 "North");
                    id := (-100000)%Z;
                    properties := {| base_name := lit "North";
                                     base_center_id := lit "NWAC" |} |}
       /\ features out !! 1%nat
          = Some {| feature_type := TFeature;
                    geometry := geometry (sample_feature 2 "South");
                    id := (-100002)%Z;
                    properties := {| base_name := lit "South";
                                     base_center_id := lit "NWAC" |} |}
       /\ length (features out) = 2%nat.
Proof.
  split; [reflexivity|].
  destruct (transform_drops_only_invalid
              BaseProperties nonEmptyName_safeParse sample_collection (lit "NWAC")
              1 (sample_feature 1 "")
              [mkIssue invalid_enum_value [PKey (lit "name")]]
              eq_refl eq_refl)
    as (out & Hout & Habsent & Hkept & Hlen & _).
  exists out. split; [exact Hout|]. split; [exact Habsent|].
  split; [|split].
  - exact (Hkept 0%nat (sample_feature 0 "North") _ eq_refl eq_refl).
  - exact (Hkept 2%nat (sample_feature 2 "South") _ eq_refl eq_refl).
  - exact Hlen.
Defined.

Lemma invalid_kml_yields_empty_collection_witness :
  let response := lit "<kml><Document><Folder/></Document></kml>" in
  let url := lit "https://example.org/zones.kml" in
  let e := [mkIssue (invalid_type t_array t_undefined)
                    [PKey (lit "kml"); PKey (lit "Document"); PKey (lit "Folder");
                     PKey (lit "Placemark")]] in
  KMLFileSchema_model_safeParse tree_without_placemarks = Failure e
  /\ parseKmlData KMLFileSchema_model_safeParse fixed_xml2json
                  (fixed_JSON_parse tree_without_placemarks) response url
     = mkM (Returned {| collection_type := TFeatureCollection; features := [] |})
           [Logged level_error (msg_invalid_kml e); SentryCaptured e url]
  /\ outcome (fetchAlternateObservationZones
                BaseProperties nonEmptyName_safeParse KMLFileSchema_model_safeParse
                fixed_xml2json (fixed_JSON_parse tree_without_placemarks)
                (fixed_safeFetch response) url (lit "NWAC"))
     = Returned {| collection_type := TFeatureCollection; features := [] |}.
Proof.
  intros response url e. split; [reflexivity|].
  destruct (invalid_kml_yields_empty_collection
              BaseProperties nonEmptyName_safeParse KMLFileSchema_model_safeParse
              fixed_xml2json (fixed_JSON_parse tree_without_placemarks)
              (fixed_safeFetch response)
              response url response tree_without_placemarks e (lit "NWAC")
              eq_refl eq_refl eq_refl) as [Hparse Hfetch].
  split; [exact Hparse | apply Hfetch; reflexivity].
Defined.

Lemma unnamed_placemark_gets_default_name_witness :
  let placemark := {| name := {| _text := None |}; Polygon := None;
                      MultiGeometry := None |} in
  exists coll feature,
    outcome (parseKmlData KMLFileSchema_model_safeParse fixed_xml2json
                          (fixed_JSON_parse tree_three_placemarks) [] [])
    = Returned coll
    /\ features coll !! 1%nat = Some feature
    /\ kml_name (properties feature) = lit "Unknown KML Zone"
    /\ exists out zone,
         outcome (transformKmlFeaturesToObservationZones
                    BaseProperties nonEmptyName_safeParse coll (lit "NWAC"))
         = Returned out
         /\ zone ∈ features out
         /\ id zone = (-100001)%Z.
Proof.
  intros placemark.
  destruct (unnamed_placemark_gets_default_name
              BaseProperties nonEmptyName_safeParse KMLFileSchema_model_safeParse
              fixed_xml2json (fixed_JSON_parse tree_three_placemarks)
              [] [] [] tree_three_placemarks (readKMLFile tree_three_placemarks)
              1 placemark eq_refl eq_refl eq_refl eq_refl (or_introl eq_refl))
    as (coll & feature & Hcoll & Hi & Hname & Hkept).
  exists coll, feature. split; [exact Hcoll|]. split; [exact Hi|].
  split; [exact Hname|].
  destruct (Hkept (lit "NWAC")) as (out & zone & Hout & Hin & Hid & _).
  - intros n Hn. unfold nonEmptyName_safeParse. simpl. by destruct n.
  - by exists out, zone.
Defined.

Lemma placemark_without_geometry_is_kept_witness :
  let placemark := {| name := {| _text := None |}; Polygon := None;
                      MultiGeometry := None |} in
  getCoordinateString placemark = []
  /\ exists coll feature,
       outcome (parseKmlData KMLFileSchema_model_safeParse fixed_xml2json
                             (fixed_JSON_parse tree_three_placemarks) [] [])
       = Returned coll
       /\ length (features coll) = 3%nat
       /\ features coll !! 1%nat = Some feature
       /\ id feature = 1%Z
       /\ geometry feature
          = {| geometry_type := TPolygon; geometry_coordinates := [[]] |}.
Proof.
  intros placemark.
  exact (placemark_without_geometry_is_kept
           KMLFileSchema_model_safeParse fixed_xml2json
           (fixed_JSON_parse tree_three_placemarks)
           [] [] [] tree_three_placemarks (readKMLFile tree_three_placemarks)
           1 placemark eq_refl eq_refl eq_refl eq_refl eq_refl eq_refl).
Defined.

Lemma fetchNWACWeatherForecast_validates_witness :
  let fetch data :=
    fetchNWACWeatherForecast unit (fun _ => lit "2023-01-02T15:00:00+00:00")
      (fixed_axios_get data) (lit "https://nwac.us") 3 tt in
  success (safeParse nwacWeatherForecastMetaSchema
             sample_response_without_creation_date) = false
  /\ outcome (fetch sample_response_without_creation_date)
     = Thrown (ZodErr [mkIssue (invalid_type t_string t_undefined)
                               [PKey (lit "objects");
                                PKey (lit "mountain_weather_forecast");
                                PKey (lit "creation_date")]]).
Proof.
  intros fetch.
  destruct (fetchNWACWeatherForecast_validates
              unit (fun _ => lit "2023-01-02T15:00:00+00:00")
              (fixed_axios_get sample_response_without_creation_date)
              (lit "https://nwac.us") 3 tt
              sample_response_without_creation_date eq_refl)
    as (Hmissing & Hthrown & _).
  split; [apply Hmissing; reflexivity|].
  apply Hthrown. vm_compute. reflexivity.
Defined.

Lemma fetchAlternateObservationZones_catches_witness :
  exists out,
    outcome (fetchAlternateObservationZones
               BaseProperties nonEmptyName_safeParse KMLFileSchema_model_safeParse
               fixed_xml2json (fixed_JSON_parse tree_three_placemarks)
               (fixed_safeFetch (lit "<kml/>")) (lit "https://example.org/z.kml")
               (lit "NWAC"))
    = Returned out.
Proof.
  destruct (fetchAlternateObservationZones_catches
              BaseProperties nonEmptyName_safeParse KMLFileSchema_model_safeParse
              fixed_xml2json (fixed_JSON_parse tree_three_placemarks)
              (fixed_safeFetch (lit "<kml/>")) (lit "https://example.org/z.kml")
              (lit "<kml/>") (lit "NWAC") eq_refl) as (out & Hout & _).
  by exists out.
Defined.

Lemma unreadable_kml_yields_empty_collection_witness :
  let failing_xml2json := fun _ : jsstring =>
    @Thrown jsstring (JsError (lit "Unclosed root tag")) in
  parseKmlData KMLFileSchema_model_safeParse failing_xml2json
               (fixed_JSON_parse VNull) (lit "<kml>") []
  = mkM (Thrown (JsError (lit "Unclosed root tag"))) []
  /\ outcome (fetchAlternateObservationZones
                BaseProperties nonEmptyName_safeParse KMLFileSchema_model_safeParse
                failing_xml2json (fixed_JSON_parse VNull)
                (fixed_safeFetch (lit "<kml>")) [] (lit "NWAC"))
     = Returned {| collection_type := TFeatureCollection; features := [] |}.
Proof.
  intros failing_xml2json.
  destruct (unreadable_kml_yields_empty_collection
              BaseProperties nonEmptyName_safeParse KMLFileSchema_model_safeParse
              failing_xml2json (fixed_JSON_parse VNull)
              (fixed_safeFetch (lit "<kml>")) [] (lit "<kml>") (lit "NWAC")
              (JsError (lit "Unclosed root tag")) (or_introl eq_refl))
    as [Hparse Hfetch].
  split; [exact Hparse|]. by destruct (Hfetch eq_refl).
Defined.

Lemma fetchAlternateObservationZones_rejects_witness :
  let rejecting_safeFetch := fun _ : jsstring =>
    @throw jsstring (AxiosError (lit "Network Error")) in
  outcome (fetchAlternateObservationZones
             BaseProperties nonEmptyName_safeParse KMLFileSchema_model_safeParse
             fixed_xml2json (fixed_JSON_parse VNull) rejecting_safeFetch
             [] (lit "NWAC"))
  = Thrown (AxiosError (lit "Network Error")).
Proof.
  intros rejecting_safeFetch.
  by rewrite (fetchAlternateObservationZones_rejects
                BaseProperties nonEmptyName_safeParse KMLFileSchema_model_safeParse
                fixed_xml2json (fixed_JSON_parse VNull) rejecting_safeFetch
                [] (lit "NWAC") (AxiosError (lit "Network Error")) eq_refl).
Defined.

Lemma parseKmlData_features_wellformed_witness :
  let placemark := {| name := {| _text := None |}; Polygon := None;
                      MultiGeometry := None |} in
  kml_name (properties (placemarkToFeature placemark 1)) <> []
  /\ id (placemarkToFeature placemark 1) = 1%Z.
Proof.
  intros placemark.
  destruct (parseKmlData_features_wellformed
              KMLFileSchema_model_safeParse fixed_xml2json
              (fixed_JSON_parse tree_three_placemarks) [] []
              {| collection_type := TFeatureCollection;
                 features :=
                   imap (fun index placemark => placemarkToFeature placemark index)
                        (Placemark (Folder (Document
                           (kml (readKMLFile tree_three_placemarks))))) |}
              1 (placemarkToFeature placemark 1) eq_refl eq_refl)
    as (Hid & Hname & _).
  by split.
Defined.

Lemma pipeline_keeps_every_placemark_witness :
  exists out,
    outcome (fetchAlternateObservationZones
               BaseProperties nonEmptyName_safeParse KMLFileSchema_model_safeParse
               fixed_xml2json (fixed_JSON_parse tree_three_placemarks)
               (fixed_safeFetch (lit "<kml/>")) [] (lit "NWAC"))
    = Returned out
    /\ length (features out) = 3%nat.
Proof.
  destruct (pipeline_keeps_every_placemark
              BaseProperties nonEmptyName_safeParse KMLFileSchema_model_safeParse
              fixed_xml2json (fixed_JSON_parse tree_three_placemarks)
              (fixed_safeFetch (lit "<kml/>")) [] (lit "<kml/>") (lit "<kml/>")
              tree_three_placemarks (readKMLFile tree_three_placemarks)
              (lit "NWAC") eq_refl eq_refl eq_refl eq_refl)
    as (out & Hout & Hlen & _).
  - intros n Hn. unfold nonEmptyName_safeParse. simpl. by destruct n.
  - exists out. by split.
Defined.

Lemma parseCoordinates_app_witness :
  parseCoordinates (lit "1,2" ++ lit "   " ++ lit "3,4")
  = parseCoordinates (lit "1,2") ++ parseCoordinates (lit "3,4").
Proof.
  apply (parseCoordinates_app (lit "1,2") (lit "   ") (lit "3,4"));
    [discriminate | reflexivity].
Defined.

Lemma parseCoordinates_render_witness :
  let lon := {| d_neg := true; d_int := [1; 2; 1]; d_frac := [7; 5] |} in
  let lat := {| d_neg := false; d_int := [4; 7]; d_frac := [] |} in
  render_coordinates [(lon, lat); (lat, lon)] = lit "-121.75,47 47,-121.75"
  /\ parseCoordinates (render_coordinates [(lon, lat); (lat, lon)])
     = [ [decimal_number lon; decimal_number lat];
         [decimal_number lat; decimal_number lon] ].
Proof.
  intros lon lat. split; [reflexivity|].
  apply (parseCoordinates_render [(lon, lat); (lat, lon)]).
  assert (Hlon : wf_decimal lon /\ short_decimal lon).
  { split; [split; [discriminate|split; repeat constructor]|].
    unfold short_decimal. simpl. lia. }
  assert (Hlat : wf_decimal lat /\ short_decimal lat).
  { split; [split; [discriminate|split; repeat constructor]|].
    unfold short_decimal. simpl. lia. }
  constructor; [by split|]. constructor; [by split|]. constructor.
Defined.

Lemma forecast_dates_annotated_witness :
  let parsed := match safeParse nwacWeatherForecastMetaSchema sample_response_valid with
                | Success d => d
                | Failure _ => VUndefined
                end in
  safeParse nwacWeatherForecastMetaSchema sample_response_valid = Success parsed
  /\ get (get (get parsed (lit "objects")) (lit "mountain_weather_forecast"))
         (lit "creation_date")
     = VStr (lit "2023-01-02" ++ lit "T" ++ lit "14:05:00" ++ lit "+00:00").
Proof.
  intros parsed.
  assert (Hparsed : safeParse nwacWeatherForecastMetaSchema sample_response_valid
                    = Success parsed) by (vm_compute; reflexivity).
  split; [exact Hparsed|].
  destruct (forecast_dates_annotated sample_response_valid parsed
              (lit "creation_date") (lit "2023-01-02 14:05:00")
              Hparsed (or_introl eq_refl) eq_refl) as (_ & Hsplit & _).
  apply (Hsplit (lit "2023-01-02") (lit "14:05:00") eq_refl).
  apply (bool_decide_unpack _). vm_compute. reflexivity.
Defined.

Lemma forecast_afternoon_coerced_witness :
  let parsed := match safeParse nwacWeatherForecastMetaSchema sample_response_valid with
                | Success d => d
                | Failure _ => VUndefined
                end in
  get (get (get sample_response_without_afternoon (lit "objects"))
           (lit "mountain_weather_forecast")) (lit "afternoon") = VUndefined
  /\ get (get (get parsed (lit "objects")) (lit "mountain_weather_forecast"))
         (lit "afternoon")
     = VBool true
  /\ exists parsed',
       safeParse nwacWeatherForecastMetaSchema sample_response_without_afternoon
       = Success parsed'
       /\ get (get (get parsed' (lit "objects")) (lit "mountain_weather_forecast"))
              (lit "afternoon")
          = VBool false.
Proof.
  intros parsed. split; [reflexivity|].
  apply (forecast_afternoon_coerced sample_response_valid parsed
           sample_response_without_afternoon).
  - vm_compute. reflexivity.
  - reflexivity.
  - reflexivity.
  - reflexivity.
  - repeat (apply List.Forall_cons; [reflexivity|]). apply List.Forall_nil.
  - reflexivity.
  - repeat (apply List.Forall_cons; [reflexivity|]). apply List.Forall_nil.
Defined.

Lemma forecast_keys_are_those_of_the_schema_witness :
  let parsed := match safeParse nwacWeatherForecastMetaSchema sample_response_valid with
                | Success d => d
                | Failure _ => VUndefined
                end in
  exists fields,
    get parsed (lit "objects") = VObj fields /\ length fields = 9%nat.
Proof.
  intros parsed.
  destruct (forecast_keys_are_those_of_the_schema sample_response_valid parsed)
    as (fields & Hget & Hkeys); [vm_compute; reflexivity|].
  exists fields. split; [exact Hget|].
  rewrite <- (length_fmap fst), Hkeys. reflexivity.
Defined.

Lemma forecast_time_of_day_checked_witness :
  let entry := VObj [ (lit "date", str "2023-01-02");
                      (lit "time_of_day", str "Morning");
                      (lit "description", str "Light snow.") ] in
  success (safeParse nwacWeatherForecastMetaSchema
             (VObj [ (lit "objects",
                       VObj [ (lit "weather_forecasts", VArr [entry]) ]) ]))
  = false.
Proof.
  intros entry.
  apply (forecast_time_of_day_checked
           (VObj [ (lit "objects",
                     VObj [ (lit "weather_forecasts", VArr [entry]) ]) ])
           [entry] 0 entry eq_refl eq_refl).
  intros Hcode. apply list_elem_of_fmap in Hcode as (code & Heq & Hin).
  injection Heq as <-. revert Hin.
  apply (bool_decide_unpack _). vm_compute. reflexivity.
Defined.

Lemma forecast_error_names_the_key_witness :
  exists e,
    safeParse nwacWeatherForecastMetaSchema sample_response_without_creation_date
    = Failure e
    /\ mkIssue (invalid_type t_string t_undefined)
               [PKey (lit "objects"); PKey (lit "mountain_weather_forecast");
                PKey (lit "creation_date")]
       ∈ e.
Proof.
  apply (forecast_error_names_the_key sample_response_without_creation_date
           (lit "creation_date") eq_refl eq_refl eq_refl).
  - apply list_elem_of_here.
  - vm_compute. discriminate.
Defined.

Lemma StationList_actions_witness :
  match StationList_data codeunit_compare (lit "NWAC") (lit "latest") sample_zones with
  | entry :: _ =>
      zoneName entry = lit "Stevens Pass"
      /\ Sorted (fun a b => (codeunit_compare a b <= 0)%Z) (label <$> actions entry)
  | [] => False
  end.
Proof.
  destruct (StationList_data codeunit_compare (lit "NWAC") (lit "latest") sample_zones)
    as [|entry rest] eqn:Hdata; [vm_compute in Hdata; discriminate|].
  destruct (StationList_actions codeunit_compare (lit "NWAC") (lit "latest")
              sample_zones entry codeunit_compare_total)
    as (zone & _ & _ & _ & _ & Hsorted & _).
  - rewrite Hdata. apply list_elem_of_here.
  - split; [|exact Hsorted].
    injection Hdata as <- _. reflexivity.
Defined.

(** ** Sample runs *)

(** A response that passes: the payload is returned with its two dates
    annotated as UTC. *)
Example fetchNWACWeatherForecast_sample :
  exists payload,
    outcome (fetchNWACWeatherForecast unit (fun _ => lit "2023-01-02T15:00:00+00:00")
               (fixed_axios_get sample_response_valid) (lit "https://nwac.us") 3 tt)
    = Returned payload
    /\ get (get payload (lit "mountain_weather_forecast")) (lit "creation_date")
       = str "2023-01-02T14:05:00+00:00"
    /\ get (get payload (lit "mountain_weather_forecast")) (lit "afternoon")
       = VBool true.
Proof. eexists. split; [vm_compute; reflexivity|]. split; reflexivity. Qed.

(** The second of three features is dropped; the third keeps the
    identifier of its own ordinal. *)
Example transform_sample :
  (fun r => (id <$> features r))
    <$> match outcome (transformKmlFeaturesToObservationZones
                         BaseProperties nonEmptyName_safeParse
                         sample_collection (lit "NWAC")) with
        | Returned r => Some r
        | Thrown _ => None
        end
  = Some [(-100000)%Z; (-100002)%Z].
Proof. reflexivity. Qed.

(** parseFloat on some edge cases. *)
Example parseFloat_samples :
  parseFloat (lit "47.430") = Dec false 4743 (-2)
  /\ parseFloat (lit "  -0") = Dec true 0 0
  /\ parseFloat (lit "1e3abc") = Dec false 1 3
  /\ parseFloat (lit ".5") = Dec false 5 (-1)
  /\ parseFloat (lit "-Infinity") = Inf true
  /\ parseFloat (lit "abc") = NaN
  /\ parseFloat (lit "") = NaN
  /\ parseFloat_arg None = NaN.
Proof. repeat split; vm_compute; reflexivity. Qed.

(** [split(/\s+/)] without the trim keeps the empty end pieces. *)
Example split_ws_samples :
  split_ws (lit " a  b ") = [[]; lit "a"; lit "b"; []]
  /\ split_ws [] = [[]]
  /\ split_ws (trim (lit " a  b ")) = [lit "a"; lit "b"].
Proof. repeat split; reflexivity. Qed.

